(** * The Arkouda NYC-taxi tutorial notebook: grouped z-score pipeline

    A shallow embedding of the code cells of
    [clean_tutorial_nyc_taxi_parquet.ipynb] (and of the shorter
    "lightning" variant of the same notebook): the lookup-table converter
    [cvt_to_string], the boolean-mask filters, the group-by / aggregate /
    broadcast cells that attach [fare_mean], [fare_std] and [fare_z] to the
    ride table, and the final [argmax].

    Numeric model.  In the ride table, [float64] columns are modelled by
    exact rationals ([Qc], canonical fractions with Leibniz equality) and
    [int64] columns by [Z]; rounding, infinities and NaN are outside this
    model of the table.  The cells that compute the per-group mean and the
    value stored as ['fare_std'] are embedded a second time in IEEE 754
    binary64 arithmetic (module [F64], over Rocq's primitive [float]), and
    the results about the two-moment formula and about singleton groups
    are stated there, where rounding, overflow and NaN are what the server
    computes.

    Errors.  A Python exception is a value [Raise e] of the [result] type;
    [try: ... except: ...] is the combinator [try_except].

    The notebook's own code is the converter and the cells.  The Arkouda and
    pandas operations that the cells call (column indexing, elementwise
    arithmetic, [GroupBy] with its reductions and [broadcast], [argmax])
    are library code outside the notebook; they are modelled from the
    interface the specification lists for them, and marked as such. *)

From Stdlib Require Import ZArith QArith Qcanon Lia Lqa Floats.
From stdpp Require Import base option list sorting strings numbers pretty.

Open Scope Qc_scope.

(** ** Exceptions *)

Inductive exn : Type :=
  | ValueError
  | KeyError
  | SchemaError
  | TypeError
  | EmptySelectionError
  | OtherError (msg : string).

Inductive result (A : Type) : Type :=
  | Ok (a : A)
  | Raise (e : exn).
Arguments Ok {A} a.
Arguments Raise {A} e.

(** Sequencing: the first exception raised aborts the rest of the cell. *)
Definition bind {A B} (m : result A) (f : A → result B) : result B :=
  match m with
  | Ok a => f a
  | Raise e => Raise e
  end.

Notation "'let*' x := m 'in' k" := (bind m (λ x, k))
  (at level 10, x pattern, m at level 100, k at level 200).

(** [try: body / except: handler] with a bare [except], which catches every
    exception. *)
Definition try_except {A} (body handler : result A) : result A :=
  match body with
  | Ok a => Ok a
  | Raise _ => handler
  end.

Definition of_option {A} (e : exn) (o : option A) : result A :=
  match o with
  | Some a => Ok a
  | None => Raise e
  end.

Definition is_ok {A} (r : result A) : Prop :=
  match r with
  | Ok _ => True
  | Raise _ => False
  end.

(** ** Python values seen by the CSV converter

    [pandas.read_csv] hands a converter the raw cell, normally a [str]; the
    converter itself accepts any object.  An arbitrary object is described
    by what its [__eq__] (followed by the truth test of [if]) and its
    [__str__] do, each of which may raise. *)

Record pyobj : Type := {
  obj_eq : string → result bool;
  obj_str : result string;
}.

Inductive pyval : Type :=
  | PyStr (s : string)
  | PyInt (n : Z)
  | PyBool (b : bool)
  | PyNone
  | PyObj (o : pyobj).

(** [bool(v == s)] for a string literal [s]. *)
Definition py_eq_str (v : pyval) (s : string) : result bool :=
  match v with
  | PyStr t => Ok (bool_decide (t = s))
  | PyInt _ | PyBool _ | PyNone => Ok false
  | PyObj o => obj_eq o s
  end.

(** [str(v)]. *)
Definition py_str (v : pyval) : result string :=
  match v with
  | PyStr t => Ok t
  | PyInt n => Ok (pretty n)
  | PyBool true => Ok "True"%string
  | PyBool false => Ok "False"%string
  | PyNone => Ok "None"%string
  | PyObj o => obj_str o
  end.

(** <<
    def cvt_to_string(v):
        try:
            if v == '':
                return 'N/A'
            else:
                return str(v)
        except:
            return 'N/A'
    >> *)
Definition cvt_to_string (v : pyval) : result string :=
  try_except
    (let* b := py_eq_str v "" in
     if b : bool then Ok "N/A"%string else py_str v)
    (Ok "N/A"%string).

(** What the converter is documented to return, case by case. *)
Definition cvt_to_string_expected (v : pyval) : string :=
  match py_eq_str v "" with
  | Raise _ => "N/A"
  | Ok true => "N/A"
  | Ok false =>
      match py_str v with
      | Ok s => s
      | Raise _ => "N/A"
      end
  end.

(** ** Columns and the ride table

    A column is an Arkouda array held by the server: [int64], [float64],
    [bool], or a [Strings] array.  The ride table ([ak.DataFrame]) is an
    insertion-ordered dictionary from column names to columns of one common
    length. *)

Inductive column : Type :=
  | Int64 (l : list Z)
  | Float64 (l : list Qc)
  | Bool (l : list bool)
  | Strings (l : list string).

Definition size (c : column) : nat :=
  match c with
  | Int64 l => length l
  | Float64 l => length l
  | Bool l => length l
  | Strings l => length l
  end.

(** Modelled from the spec: boolean-mask row filtering, which keeps the
    entries whose mask bit is set, in their relative order. *)
Fixpoint compress {A} (mask : list bool) (l : list A) : list A :=
  match mask, l with
  | b :: mask, x :: l => if b then x :: compress mask l else compress mask l
  | _, _ => []
  end.

Definition compress_col (mask : list bool) (v : column) : column :=
  match v with
  | Int64 l => Int64 (compress mask l)
  | Float64 l => Float64 (compress mask l)
  | Bool l => Bool (compress mask l)
  | Strings l => Strings (compress mask l)
  end.

(** Modelled from the spec: [v[mask]] for a boolean array [mask] of the
    size of [v]; the library raises [ValueError] when the sizes differ. *)
Definition getitem_mask (v : column) (mask : list bool) : result column :=
  if bool_decide (size v = length mask) then Ok (compress_col mask v)
  else Raise ValueError.

(** A scalar read back from a column, as [v[i]] returns it. *)
Inductive scalar : Type :=
  | SInt (n : Z)
  | SFloat (x : Qc)
  | SBool (b : bool)
  | SStr (s : string).

(** Modelled from the spec: [v[i]] for an integer [i]; out of range
    raises. *)
Definition getitem_int (v : column) (i : nat) : result scalar :=
  of_option (OtherError "IndexError")
    match v with
    | Int64 l => SInt <$> l !! i
    | Float64 l => SFloat <$> l !! i
    | Bool l => SBool <$> l !! i
    | Strings l => SStr <$> l !! i
    end.

(** The numeric view of a column used by arithmetic: integers are read as
    the rationals they denote; booleans and strings are not numbers here. *)
Definition Z2Qc (n : Z) : Qc := Q2Qc (inject_Z n).

Definition as_float (c : column) : result (list Qc) :=
  match c with
  | Float64 l => Ok l
  | Int64 l => Ok (Z2Qc <$> l)
  | Bool _ | Strings _ => Raise TypeError
  end.

Definition as_int (c : column) : result (list Z) :=
  match c with
  | Int64 l => Ok l
  | _ => Raise TypeError
  end.

(** Modelled from the spec: elementwise arithmetic over two columns, which
    yields a column of equal length; the sizes must agree. *)
Definition binop {A B C} (f : A → B → C) (a : list A) (b : list B)
    : result (list C) :=
  if bool_decide (length a = length b) then Ok (zip_with f a b)
  else Raise ValueError.

(** [x ** 2] *)
Definition square (x : Qc) : Qc := x * x.

Definition DataFrame : Type := list (string * column).

Definition columns (df : DataFrame) : list string := df.*1.

(** [len(df)]: the common column length (0 for a table without columns). *)
Definition nrows (df : DataFrame) : nat :=
  match df with
  | [] => 0%nat
  | (_, c) :: _ => size c
  end.

(** The table invariant: every column has [n] entries. *)
Definition wf_df (n : nat) (df : DataFrame) : Prop :=
  Forall (λ kc, size kc.2 = n) df.

(** Modelled from the spec: [ak.DataFrame(d)] and [pd.DataFrame(d)] from a
    dictionary of columns, which refuse columns of unequal length. *)
Definition mk_DataFrame (d : list (string * column)) : result DataFrame :=
  if bool_decide (Forall (λ kc, size kc.2 = nrows d) d) then Ok d
  else Raise ValueError.

(** Modelled from the spec: column projection [df[name]]; a referenced
    column that the table does not have is a [SchemaError]. *)
Fixpoint df_get (df : DataFrame) (name : string) : result column :=
  match df with
  | [] => Raise SchemaError
  | (k, c) :: df => if bool_decide (k = name) then Ok c else df_get df name
  end.

(** Dictionary update: an existing key keeps its position, a new key goes
    last. *)
Fixpoint dict_set (df : DataFrame) (name : string) (c : column) : DataFrame :=
  match df with
  | [] => [(name, c)]
  | (k, c') :: df =>
      if bool_decide (k = name) then (k, c) :: df
      else (k, c') :: dict_set df name c
  end.

(** Modelled from the spec: [df[name] = c], which augments the table in
    place by a derived column.  The new column must be as long as the table
    (any length is accepted by a table that has no column yet). *)
Definition df_set (df : DataFrame) (name : string) (c : column)
    : result DataFrame :=
  match df with
  | [] => Ok [(name, c)]
  | _ => if bool_decide (size c = nrows df) then Ok (dict_set df name c)
         else Raise ValueError
  end.

(** [{k: v[mask] for k, v in df.items()}] *)
Fixpoint mask_items (df : DataFrame) (mask : list bool)
    : result (list (string * column)) :=
  match df with
  | [] => Ok []
  | (k, v) :: df =>
      let* v' := getitem_mask v mask in
      let* rest := mask_items df mask in
      Ok ((k, v') :: rest)
  end.

(** The filtering idiom of the notebook, used for both filters:
    [DataFrame({k: v[mask] for k, v in data.items()})]. *)
Definition filter_rows (df : DataFrame) (mask : list bool) : result DataFrame :=
  let* d := mask_items df mask in
  mk_DataFrame d.

(** [data['fare_amount'] >= 0] *)
Definition non_neg_mask (df : DataFrame) : result (list bool) :=
  let* c := df_get df "fare_amount" in
  let* fare := as_float c in
  Ok ((λ x, bool_decide (0 <= x)) <$> fare).

(** [data['fare_z'] > 2] *)
Definition exorbitant_mask (df : DataFrame) : result (list bool) :=
  let* c := df_get df "fare_z" in
  let* z := as_float c in
  Ok ((λ x, bool_decide (2 < x)) <$> z).

(** The number of rows a mask selects. *)
Definition count_true (mask : list bool) : nat := length (filter Is_true mask).

(** One column is an in-order selection of the other. *)
Definition col_sublist (c' c : column) : Prop :=
  match c', c with
  | Int64 l', Int64 l => l' `sublist_of` l
  | Float64 l', Float64 l => l' `sublist_of` l
  | Bool l', Bool l => l' `sublist_of` l
  | Strings l', Strings l => l' `sublist_of` l
  | _, _ => False
  end.

(** The table obtained from [df] by keeping the rows selected by [mask]. *)
Definition select_rows (mask : list bool) (df : DataFrame) : DataFrame :=
  prod_map id (compress_col mask) <$> df.

(** The positions of the rows that a mask keeps, in increasing order. *)
Definition kept_rows (mask : list bool) : list nat :=
  compress mask (seq 0 (length mask)).

(** ** Filtering on the server

    Modelled from the spec: filtering produces a new, narrower table and is
    not a mutation of the original.  The client holds handles; the arrays
    live in the server's symbol table.  Indexing an array by a mask
    registers a new array and leaves every registered array as it is. *)

Module Server.

Abbreviation store := (list column).
Abbreviation handle := nat.

(** The client's view of a table: column names and array handles. *)
Abbreviation table := (list (string * handle)).

Definition alloc (st : store) (c : column) : store * handle :=
  (st ++ [c], length st).

Definition read (st : store) (h : handle) : result column :=
  of_option KeyError (st !! h).

(** [v[m]] for handles [v] and [m]: the server computes the selection and
    registers it under a fresh handle. *)
Definition getitem_mask (st : store) (v m : handle) : result (store * handle) :=
  let* cv := read st v in
  let* cm := read st m in
  match cm with
  | Bool mask =>
      let* r := getitem_mask cv mask in
      Ok (alloc st r)
  | _ => Raise TypeError
  end.

(** [{k: v[m] for k, v in df.items()}] *)
Fixpoint mask_items (st : store) (df : table) (m : handle)
    : result (store * table) :=
  match df with
  | [] => Ok (st, [])
  | (k, v) :: df =>
      let* (st1, v') := getitem_mask st v m in
      let* (st2, rest) := mask_items st1 df m in
      Ok (st2, (k, v') :: rest)
  end.

(** The table of columns that a table of handles denotes. *)
Definition deref (st : store) (df : table) : option DataFrame :=
  mapM (λ kh, (λ c, (kh.1, c)) <$> st !! kh.2) df.

(** [DataFrame({k: v[m] for k, v in df.items()})] *)
Definition filter_rows (st : store) (df : table) (m : handle)
    : result (store * table) :=
  let* (st', d) := mask_items st df m in
  let* cols := of_option KeyError (deref st' d) in
  let* _ := mk_DataFrame cols in
  Ok (st', d).

End Server.

(** ** Grouping, aggregation and broadcast

    [ak.GroupBy] and its methods are calls into the Arkouda library, which
    is not part of the notebook.  They are modelled by their contract: rows
    are grouped by the tuple of their key values, the unique keys come in
    ascending (lexicographic) order, a reduction yields one value per
    unique key, and [broadcast] sends a per-group value to every row of the
    group, in the row order of the grouped table. *)

Definition key : Type := list Z.

(** Lexicographic order on key tuples. *)
Fixpoint key_leb (a b : key) : bool :=
  match a, b with
  | [], _ => true
  | _ :: _, [] => false
  | x :: a, y :: b => (x <? y)%Z || ((x =? y)%Z && key_leb a b)
  end.

Definition sumQ (l : list Qc) : Qc := foldr Qcplus 0 l.

Module GroupBy.

(** Modelled from the spec: the grouping structure built by
    [ak.GroupBy(columns)], which records the key tuple of every row. *)
Record t : Type := { keys : list key }.

(** Modelled from the spec: the key tuples of the rows, from the list of
    key columns.  The columns must be given and of one length. *)
Definition row_keys (cols : list (list Z)) : result (list key) :=
  match cols with
  | [] => Raise ValueError
  | c :: _ =>
      if bool_decide (Forall (λ c', length c' = length c) cols) then
        Ok (foldr (zip_with cons) (replicate (length c) []) cols)
      else Raise ValueError
  end.

(** Modelled from the spec: [ak.GroupBy(columns)]. *)
Definition make (cols : list (list Z)) : result t :=
  let* ks := row_keys cols in
  Ok {| keys := ks |}.

(** Modelled from the spec: [g.unique_keys], each key tuple of the table
    once, in ascending order. *)
Definition unique_keys (g : t) : list key :=
  merge_sort (λ a b, key_leb a b) (remove_dups (keys g)).

Definition ngroups (g : t) : nat := length (unique_keys g).

(** The mask of the rows of the group with key [k]. *)
Definition members (g : t) (k : key) : list bool :=
  (λ k', bool_decide (k' = k)) <$> keys g.

(** Modelled from the spec: the entries of a column that belong to the
    rows of group [k], in row order. *)
Definition segment {A} (g : t) (k : key) (xs : list A) : list A :=
  compress (members g k) xs.

Definition count (g : t) (k : key) : nat := length (segment g k (keys g)).

(** Modelled from the spec: [g.size()], the unique keys and the number of
    rows of each group. *)
Definition size (g : t) : list key * list Z :=
  (unique_keys g, (λ k, Z.of_nat (count g k)) <$> unique_keys g).

(** Modelled from the spec: [g.sum(values)], the unique keys and the sum
    of the values of each group. *)
Definition sum (g : t) (values : list Qc) : result (list key * list Qc) :=
  if bool_decide (length values = length (keys g)) then
    Ok (unique_keys g, (λ k, sumQ (segment g k values)) <$> unique_keys g)
  else Raise ValueError.

(** Modelled from the spec: [g.mean(values)], sum over count per group. *)
Definition mean (g : t) (values : list Qc) : result (list key * list Qc) :=
  if bool_decide (length values = length (keys g)) then
    Ok (unique_keys g,
        (λ k, sumQ (segment g k values) / Z2Qc (Z.of_nat (count g k)))
          <$> unique_keys g)
  else Raise ValueError.

(** The position of the group of key [k] among the unique keys. *)
Definition group_index (g : t) (k : key) : option nat :=
  fst <$> list_find (λ k', k' = k) (unique_keys g).

(** Modelled from the spec: [g.broadcast(values, permute=True)], one
    value per group sent to every row of the group, aligned with the
    rows of the grouped table. *)
Definition broadcast {A} (g : t) (values : list A) : result (list A) :=
  if bool_decide (length values = ngroups g) then
    of_option ValueError
      (mapM (λ k, j ← group_index g k; values !! j) (keys g))
  else Raise ValueError.

End GroupBy.

(** [int64] array to the rationals, as the division [sums / w] does. *)
Definition to_float (l : list Z) : list Qc := Z2Qc <$> l.

(** [x.argmax()]: the first position of the largest entry.  The traversal
    keeps the current best and replaces it only by a strictly larger entry. *)
Fixpoint argmax_from (best_i : nat) (best : Qc) (i : nat) (l : list Qc)
    : nat :=
  match l with
  | [] => best_i
  | x :: l =>
      if bool_decide (best < x) then argmax_from i x (S i) l
      else argmax_from best_i best (S i) l
  end.

(** Modelled from the spec: [Column.argmax()], which fails with the "empty
    selection" condition on an empty column. *)
Definition argmax (l : list Qc) : result nat :=
  match l with
  | [] => Raise EmptySelectionError
  | x :: l => Ok (argmax_from 0 x 1 l)
  end.

(** The segments of a column, one per listed key. *)
Definition segments {A} (ks keys : list key) (xs : list A) : list (list A) :=
  (λ k, compress ((λ k', bool_decide (k' = k)) <$> keys) xs) <$> ks.

(** Row [i] of the grouped table belongs to group number [j]: its key tuple
    is the [j]-th unique key. *)
Definition in_group (g : GroupBy.t) (i j : nat) : Prop :=
  ∃ k, GroupBy.unique_keys g !! j = Some k ∧ GroupBy.keys g !! i = Some k.

(** ** The cells of the anomaly pipeline *)

(** [byloc = ak.GroupBy([data['PULocationID'], data['DOLocationID']])] *)
Definition cell_groupby (data : DataFrame) : result GroupBy.t :=
  let* pu := df_get data "PULocationID" in
  let* pu := as_int pu in
  let* do := df_get data "DOLocationID" in
  let* do := as_int do in
  GroupBy.make [pu; do].

(** [(u, v), w = byloc.size()]: only the counts [w] are used afterwards. *)
Definition cell_size (byloc : GroupBy.t) : list Z := (GroupBy.size byloc).2.

(** [_, mf = byloc.mean(data['fare_amount'])] *)
Definition cell_mf (byloc : GroupBy.t) (data : DataFrame) : result (list Qc) :=
  let* fare := df_get data "fare_amount" in
  let* fare := as_float fare in
  let* r := GroupBy.mean byloc fare in
  Ok r.2.

(** [sf = (byloc.sum(data['fare_amount']**2)[1] / w) - mf**2] *)
Definition cell_sf (byloc : GroupBy.t) (data : DataFrame)
    (w : list Z) (mf : list Qc) : result (list Qc) :=
  let* fare := df_get data "fare_amount" in
  let* fare := as_float fare in
  let* s2 := GroupBy.sum byloc (square <$> fare) in
  let* q := binop Qcdiv s2.2 (to_float w) in
  binop Qcminus q (square <$> mf).

(** <<
    data['fare_mean'] = byloc.broadcast(mf, permute=True)
    data['fare_std'] = byloc.broadcast(sf, permute=True)
    >> *)
Definition cell_broadcast (byloc : GroupBy.t) (mf sf : list Qc)
    (data : DataFrame) : result DataFrame :=
  let* m := GroupBy.broadcast byloc mf in
  let* data := df_set data "fare_mean" (Float64 m) in
  let* s := GroupBy.broadcast byloc sf in
  df_set data "fare_std" (Float64 s).

(** [data['fare_z'] = (data['fare_amount'] - data['fare_mean'])
                       / (data['fare_std'] + 1)] *)
Definition cell_fare_z (data : DataFrame) : result DataFrame :=
  let* fare := df_get data "fare_amount" in
  let* fare := as_float fare in
  let* m := df_get data "fare_mean" in
  let* m := as_float m in
  let* s := df_get data "fare_std" in
  let* s := as_float s in
  let* num := binop Qcminus fare m in
  let* z := binop Qcdiv num ((λ x, x + 1) <$> s) in
  df_set data "fare_z" (Float64 z).

(** The cells from [ak.GroupBy] to [fare_z], run in notebook order. *)
Definition zscore_cells (data : DataFrame) : result DataFrame :=
  let* byloc := cell_groupby data in
  let w := cell_size byloc in
  let* mf := cell_mf byloc data in
  let* sf := cell_sf byloc data w mf in
  let* data := cell_broadcast byloc mf sf data in
  cell_fare_z data.

(** <<
    exorbitant = (data['fare_z'] > 2)
    exdf = pd.DataFrame({k: v[exorbitant].to_ndarray() for k, v in data.items()})
    >> *)
Definition cell_exdf (data : DataFrame) : result DataFrame :=
  let* exorbitant := exorbitant_mask data in
  filter_rows data exorbitant.

(** <<
    non_neg = data['fare_amount'] >= 0
    data = ak.DataFrame({k:v[non_neg] for k, v in data.items()})
    >> *)
Definition cell_non_neg (data : DataFrame) : result DataFrame :=
  let* non_neg := non_neg_mask data in
  filter_rows data non_neg.

(** [worst = data['fare_z'].argmax()] *)
Definition cell_worst (data : DataFrame) : result nat :=
  let* z := df_get data "fare_z" in
  let* z := as_float z in
  argmax z.

(** [{k:v[worst] for k, v in data.items()}] *)
Fixpoint row_at (data : DataFrame) (i : nat) : result (list (string * scalar)) :=
  match data with
  | [] => Ok []
  | (k, v) :: data =>
      let* x := getitem_int v i in
      let* rest := row_at data i in
      Ok ((k, x) :: rest)
  end.

(** ** What the pipeline cells compute

    For a grouping [g] and the fare column, the per-group values in closed
    form: the group mean, and the value [sf] that the notebook broadcasts
    into the column ['fare_std']. *)

Definition group_mean (g : GroupBy.t) (fare : list Qc) (k : key) : Qc :=
  sumQ (GroupBy.segment g k fare) / Z2Qc (Z.of_nat (GroupBy.count g k)).

Definition group_sf (g : GroupBy.t) (fare : list Qc) (k : key) : Qc :=
  sumQ (GroupBy.segment g k (square <$> fare))
    / Z2Qc (Z.of_nat (GroupBy.count g k))
  - square (group_mean g fare k).

Definition fare_z_of (g : GroupBy.t) (fare : list Qc) (x : Qc) (k : key) : Qc :=
  (x - group_mean g fare k) / (group_sf g fare k + 1).

(** ** An independent per-row computation of the group mean

    The mean of the group of the location pair [(a, b)], computed by one
    direct scan of the three columns, without any grouping structure. *)




(** ** The ride table read by the pipeline *)

(** A ride table with [n] rows whose pickup, drop-off and fare columns are
    [pu], [do] and [fare]. *)
Definition ride_table (n : nat) (data : DataFrame)
    (pu do : list Z) (fare : list Qc) : Prop :=
  wf_df n data
  ∧ df_get data "PULocationID" = Ok (Int64 pu)
  ∧ df_get data "DOLocationID" = Ok (Int64 do)
  ∧ df_get data "fare_amount" = Ok (Float64 fare).

(** The first and second moment of a list of fares. *)
Definition moment1 (xs : list Qc) : Qc :=
  sumQ xs / Z2Qc (Z.of_nat (length xs)).
Definition moment2 (xs : list Qc) : Qc :=
  sumQ (square <$> xs) / Z2Qc (Z.of_nat (length xs)).

(** ** The mean and variance cells in [float64] arithmetic

    The fare column is a [float64] array, and the cells that compute [mf]
    and [sf] work on it in IEEE 754 binary64 arithmetic: every operation
    rounds to the nearest representable value, a product can overflow to an
    infinity, and the difference of two infinities is NaN.  The two cells
    are embedded here over binary64 values ([float], with the operations of
    [PrimFloat]); the columns that the cells read from the table are passed
    as arguments.

    Modelled from the spec: the per-group reductions of the aggregator.
    The order in which the library accumulates the values of a group is not
    fixed, so the [+] reduction over the values of one group is a parameter
    [reduce] of the model; the mean of a group is its sum divided by its
    count. *)

Module F64.

(** An [int64] value converted to [float64], as the division of a
    [float64] array by the [int64] counts does. *)
Definition of_int64 (n : Z) : float :=
  SF2Prim (binary_normalize prec emax n 0 false).

(** [x ** 2] *)
Definition square (x : float) : float := (x * x)%float.

(** One possible reduction: accumulate from [0.0] in row order. *)
Definition fsum (l : list float) : float := foldl PrimFloat.add 0%float l.

(** Modelled from the spec: [g.sum(values)] on a [float64] column. *)
Definition sum (reduce : list float → float) (g : GroupBy.t)
    (values : list float) : result (list key * list float) :=
  if bool_decide (length values = length (GroupBy.keys g)) then
    Ok (GroupBy.unique_keys g,
        (λ k, reduce (GroupBy.segment g k values)) <$> GroupBy.unique_keys g)
  else Raise ValueError.

(** Modelled from the spec: [g.mean(values)] on a [float64] column, sum
    over count per group. *)
Definition mean (reduce : list float → float) (g : GroupBy.t)
    (values : list float) : result (list key * list float) :=
  if bool_decide (length values = length (GroupBy.keys g)) then
    Ok (GroupBy.unique_keys g,
        (λ k, (reduce (GroupBy.segment g k values)
               / of_int64 (Z.of_nat (GroupBy.count g k)))%float)
          <$> GroupBy.unique_keys g)
  else Raise ValueError.

(** [_, mf = byloc.mean(data['fare_amount'])], where [fare] is the column
    [data['fare_amount']]. *)
Definition cell_mf (reduce : list float → float) (byloc : GroupBy.t)
    (fare : list float) : result (list float) :=
  let* r := mean reduce byloc fare in
  Ok r.2.

(** [sf = (byloc.sum(data['fare_amount']**2)[1] / w) - mf**2] *)
Definition cell_sf (reduce : list float → float) (byloc : GroupBy.t)
    (fare : list float) (w : list Z) (mf : list float) : result (list float) :=
  let* s2 := sum reduce byloc (square <$> fare) in
  let* q := binop PrimFloat.div s2.2 (of_int64 <$> w) in
  binop PrimFloat.sub q (square <$> mf).

(** The column stored as ['fare_std']: the cells from [ak.GroupBy] to
    [byloc.broadcast(sf, permute=True)], run on the pickup, drop-off and
    fare columns of the table. *)
Definition fare_std (reduce : list float → float) (pu do : list Z)
    (fare : list float) : result (list float) :=
  let* byloc := GroupBy.make [pu; do] in
  let w := cell_size byloc in
  let* mf := cell_mf reduce byloc fare in
  let* sf := cell_sf reduce byloc fare w mf in
  GroupBy.broadcast byloc sf.

(** The closed form of the two cells for the group of key [k]. *)
Definition group_mean (reduce : list float → float) (g : GroupBy.t)
    (fare : list float) (k : key) : float :=
  (reduce (GroupBy.segment g k fare)
   / of_int64 (Z.of_nat (GroupBy.count g k)))%float.

Definition group_sf (reduce : list float → float) (g : GroupBy.t)
    (fare : list float) (k : key) : float :=
  (reduce (GroupBy.segment g k (square <$> fare))
   / of_int64 (Z.of_nat (GroupBy.count g k))
   - square (group_mean reduce g fare k))%float.

(** For comparison, the variance of the values of one group recomputed by
    a second pass over them: the mean of the squared deviations from the
    mean.  The notebook does not compute this. *)
Definition two_pass (reduce : list float → float) (xs : list float) : float :=
  let n := of_int64 (Z.of_nat (length xs)) in
  let m := (reduce xs / n)%float in
  (reduce ((λ x, square (x - m)) <$> xs) / n)%float.

End F64.

(** ** The square root, which the notebook does not take *)

(** [s] is the non-negative square root of [v]. *)
Definition is_sqrt (s v : Qc) : Prop := 0 <= s ∧ s * s = v.

(** [max(v, 0)] *)
Definition clamp0 (v : Qc) : Qc := if bool_decide (v < 0) then 0 else v.

(** ** Example tables *)

(** ** The synthetic two-group table

    Group A (pickup 1, drop-off 1) has fares 10, 10, 10; group B (pickup 2,
    drop-off 3) has fares 0 and 20. *)
Definition two_groups : DataFrame :=
  [("PULocationID"%string, Int64 [1; 1; 1; 2; 2]%Z);
   ("DOLocationID"%string, Int64 [1; 1; 1; 3; 3]%Z);
   ("fare_amount"%string,
     Float64 [Z2Qc 10; Z2Qc 10; Z2Qc 10; Z2Qc 0; Z2Qc 20])].

(** The two-group table after the z-score cells. *)
Definition two_groups_scored : DataFrame :=
  two_groups ++
  [("fare_mean"%string,
     Float64 [Z2Qc 10; Z2Qc 10; Z2Qc 10; Z2Qc 10; Z2Qc 10]);
   ("fare_std"%string,
     Float64 [Z2Qc 0; Z2Qc 0; Z2Qc 0; Z2Qc 100; Z2Qc 100]);
   ("fare_z"%string,
     Float64 [Z2Qc 0; Z2Qc 0; Z2Qc 0; Q2Qc (-10 # 101); Q2Qc (10 # 101)])].

(** Fare columns as [float64] values: the fares of the two-group table; a
    column whose third fare, the [float64] nearest to [1e200], has a square
    beyond the largest finite [float64]; and three fares of [0.1], that is,
    of the [float64] nearest to it. *)
Definition fares_two_groups : list float := [10; 10; 10; 0; 20]%float.

Definition fares_overflow : list float :=
  [10; 20; 0x1.4e718d7d7625ap+664]%float.

Definition fares_tenths : list float :=
  [0x1.999999999999ap-4; 0x1.999999999999ap-4; 0x1.999999999999ap-4]%float.

(** A table with a negative fare, and the server state that holds it
    together with the mask of its non-negative fares. *)
Definition with_refund : DataFrame :=
  [("PULocationID"%string, Int64 [1; 1; 2]%Z);
   ("DOLocationID"%string, Int64 [1; 1; 3]%Z);
   ("fare_amount"%string, Float64 [Z2Qc 10; Z2Qc (-5); Z2Qc 7])].

Definition with_refund_store : Server.store :=
  [Int64 [1; 1; 2]%Z; Int64 [1; 1; 3]%Z;
   Float64 [Z2Qc 10; Z2Qc (-5); Z2Qc 7]; Bool [true; false; true]].

Definition with_refund_handles : Server.table :=
  [("PULocationID"%string, 0%nat); ("DOLocationID"%string, 1%nat);
   ("fare_amount"%string, 2%nat)].

(** ** Applying the zone lookup table

    The cells that check that the lookup table is "zero-up indexed" and
    then attach the borough and the zone of the pickup and drop-off
    location to every ride, by indexing a lookup column with a column of
    location ids. *)

(** [ak.arange(n)] *)
Definition arange (n : nat) : list Z := seqZ 0 (Z.of_nat n).

(** [a.all()] for a boolean array. *)
Definition all (a : list bool) : bool := forallb id a.

(** Indexing by an [int64] array on a bare list: entry [i] of the result
    is the entry of [l] at position [idx[i]].  This is a call into the
    library, which neither the notebook nor the specification describes;
    it is modelled by the usual contract of array indexing.  The results
    below rely on it only for indices within [0, size): what the library
    does with an index outside that range (taken here to be an error) is an
    assumption of the model that no result depends on. *)
Definition gather {A} (l : list A) (idx : list Z) : result (list A) :=
  of_option (OtherError "IndexError")
    (mapM (λ i : Z, if bool_decide (0 ≤ i)%Z then l !! Z.to_nat i else None)
          idx).

(** [v[idx]] for an [int64] array [idx]. *)
Definition getitem_idx (v : column) (idx : list Z) : result column :=
  match v with
  | Int64 l => let* r := gather l idx in Ok (Int64 r)
  | Float64 l => let* r := gather l idx in Ok (Float64 r)
  | Bool l => let* r := gather l idx in Ok (Bool r)
  | Strings l => let* r := gather l idx in Ok (Strings r)
  end.

(** [(aktzlut['LocationID'] == ak.arange(aktzlut['LocationID'].size)).all()] *)
Definition cell_zero_up (aktzlut : DataFrame) : result bool :=
  let* c := df_get aktzlut "LocationID" in
  let* ids := as_int c in
  let* c' := df_get aktzlut "LocationID" in
  let* eq := binop (λ a b : Z, bool_decide (a = b)) ids (arange (size c')) in
  Ok (all eq).

(** [aktzlut[field][data[ids]]] *)
Definition lookup_column (aktzlut data : DataFrame) (field ids : string)
    : result column :=
  let* lut := df_get aktzlut field in
  let* idx := df_get data ids in
  let* idx := as_int idx in
  getitem_idx lut idx.

(** <<
    data['PUBorough'] = aktzlut['Borough'][data['PULocationID']]
    data['DOBorough'] = aktzlut['Borough'][data['DOLocationID']]
    >> *)
Definition cell_boroughs (aktzlut data : DataFrame) : result DataFrame :=
  let* c := lookup_column aktzlut data "Borough" "PULocationID" in
  let* data := df_set data "PUBorough" c in
  let* c := lookup_column aktzlut data "Borough" "DOLocationID" in
  df_set data "DOBorough" c.

(** <<
    data['PUZone'] = aktzlut['Zone'][data['PULocationID']]
    data['DOZone'] = aktzlut['Zone'][data['DOLocationID']]
    >> *)
Definition cell_zones (aktzlut data : DataFrame) : result DataFrame :=
  let* c := lookup_column aktzlut data "Zone" "PULocationID" in
  let* data := df_set data "PUZone" c in
  let* c := lookup_column aktzlut data "Zone" "DOLocationID" in
  df_set data "DOZone" c.

(** The derived columns, in the order in which the cells attach them. *)
Definition derived_columns : list string :=
  ["fare_mean"; "fare_std"; "fare_z"]%string.

(** ** From a pandas table to an Arkouda table

    A pandas column is known here by the name of its dtype and by its
    cells.  [ak.from_series] is a call into the library: it is a parameter
    [from_series] of the model, whose second argument tells whether
    [dtype=str] was passed. *)

Record series : Type := { dtype_name : string; cells : list pyval }.

(** [df[cname]] on a pandas table with distinct column names. *)
Fixpoint pd_get (df : list (string * series)) (cname : string)
    : result series :=
  match df with
  | [] => Raise KeyError
  | (k, s) :: df => if bool_decide (k = cname) then Ok s else pd_get df cname
  end.

(** The body of the loop [for cname in df.keys(): ...], run over the
    remaining column names with the dictionary [akdict] built so far. *)
Fixpoint ak_create_loop (from_series : series → bool → result column)
    (df : list (string * series)) (cnames : list string)
    (akdict : list (string * column)) : result (list (string * column)) :=
  match cnames with
  | [] => Ok akdict
  | cname :: cnames =>
      let* s := pd_get df cname in
      let* c :=
        if bool_decide (dtype_name s = "object"%string)
        then from_series s true
        else from_series s false in
      ak_create_loop from_series df cnames (dict_set akdict cname c)
  end.

(** <<
    def ak_create_from_df(df):
        akdict = {}
        for cname in df.keys():
            if df[cname].dtype.name == 'object':
                akdict[cname] = ak.from_series(df[cname],dtype=str)
            else:
                akdict[cname] = ak.from_series(df[cname])
        return ak.DataFrame(akdict)
    >> *)
Definition ak_create_from_df (from_series : series → bool → result column)
    (df : list (string * series)) : result DataFrame :=
  let* akdict := ak_create_loop from_series df df.*1 [] in
  mk_DataFrame akdict.

(** The conversion that the function asks of [ak.from_series] for a
    column: with [dtype=str] exactly for the dtype named ['object']. *)
Definition converted (from_series : series → bool → result column)
    (s : series) : result column :=
  from_series s (bool_decide (dtype_name s = "object"%string)).

(** An instance of the parameter for the examples: strings for
    [dtype=str], integers for a column of integers, an error otherwise. *)
Definition from_series_example (s : series) (as_str : bool) : result column :=
  if as_str then
    Ok (Strings ((λ v, match py_str v with Ok t => t | Raise _ => "" end)
                   <$> cells s))
  else
    let* l := of_option TypeError
                (mapM (λ v, match v with PyInt n => Some n | _ => None end)
                      (cells s)) in
    Ok (Int64 l).

Definition pandas_zones : list (string * series) :=
  [("LocationID"%string,
     {| dtype_name := "int64"; cells := [PyInt 0; PyInt 1] |});
   ("Borough"%string,
     {| dtype_name := "object"; cells := [PyStr "N/A"; PyStr "Bronx"] |})].

(** The column [out] holds, for every row, the lookup value of the row's
    location id: whichever lookup row has that id, [out] has its value. *)
Definition looked_up (ids : list Z) (vals : list string)
    (idx : list Z) (out : list string) : Prop :=
  length out = length idx
  ∧ ∀ i id j, idx !! i = Some id → ids !! j = Some id →
      is_Some (out !! i) ∧ out !! i = vals !! j.

(** The grouping of a ride table by the location pair. *)
Definition byloc_of (pu do : list Z) : GroupBy.t :=
  {| GroupBy.keys := zip_with (λ a b, [a; b]) pu do |}.

(** A small lookup table and a ride table that refers to it. *)
Definition zones3 : DataFrame :=
  [("LocationID"%string, Int64 [0; 1; 2]%Z);
   ("Borough"%string, Strings ["N/A"; "Bronx"; "Queens"]%string);
   ("Zone"%string, Strings ["N/A"; "Allerton"; "Astoria"]%string)].

Definition rides3 : DataFrame :=
  [("PULocationID"%string, Int64 [1; 2; 2]%Z);
   ("DOLocationID"%string, Int64 [2; 2; 1]%Z);
   ("fare_amount"%string, Float64 [Z2Qc 10; Z2Qc 20; Z2Qc 7])].

(** * Properties *)

(** Evaluation of closed terms.  Canonical rationals are compared by their
    fractions ([Qc_is_canon]). *)
Ltac qc_eq :=
  vm_compute;
  repeat first [ reflexivity | apply Qc_is_canon; reflexivity | f_equal ].

(** Order goals on canonical rationals, restated on their fractions. *)
Ltac qc2q :=
  unfold Qcle, Qclt, Qcminus, Qcopp, Qcplus, Qcmult, Q2Qc; cbn [this];
  rewrite ?Qred_correct.

(** Two rationals given by different canonical fractions differ. *)
Ltac qc_neq :=
  let H := fresh in
  intros H; apply (f_equal this) in H; vm_compute in H; discriminate H.

(** ** Boolean-mask selection *)

Lemma compress_length {A} (mask : list bool) (l : list A) :
  length l = length mask → length (compress mask l) = count_true mask.
Proof.
  unfold count_true. revert l.
  induction mask as [|b mask IH]; intros [|x l] Hlen; simplify_eq/=; [done|].
  destruct b; rewrite ?filter_cons_True, ?filter_cons_False by (by simpl);
    simpl; auto.
Qed.

Lemma compress_sublist {A} (mask : list bool) (l : list A) :
  compress mask l `sublist_of` l.
Proof.
  revert l. induction mask as [|b mask IH]; intros [|x l]; simpl;
    try apply sublist_nil_l.
  destruct b; [by apply sublist_skip | by apply sublist_cons].
Qed.

Lemma compress_none {A} (mask : list bool) (l : list A) :
  Forall (λ b, b = false) mask → compress mask l = [].
Proof.
  intros Hm. revert l.
  induction Hm as [|b mask -> _ IH]; intros [|x l]; simpl; auto.
Qed.

(** The entry at position [j] of a selection is the entry of the source at
    the [j]-th selected row. *)
Lemma compress_lookup {A} (mask : list bool) (l : list A) (s j : nat) :
  length l = length mask →
  compress mask l !! j
  = compress mask (seq s (length mask)) !! j ≫= λ i, l !! (i - s)%nat.
Proof.
  revert l s j. induction mask as [|b mask IH]; intros [|x l] s j Hlen;
    simplify_eq/=; [done|].
  assert (∀ j, compress mask l !! j
     = compress mask (seq (S s) (length mask)) !! j
         ≫= λ i, (x :: l) !! (i - s)%nat) as IH'.
  { intros j'. rewrite (IH l (S s) j') by done.
    destruct (compress mask (seq (S s) (length mask)) !! j') as [i|] eqn:Hi;
      [simpl|done].
    apply list_elem_of_lookup_2 in Hi.
    apply (λ H, elem_of_sublist _ _ _ H (compress_sublist _ _)) in Hi.
    apply elem_of_seq in Hi.
    by replace (i - s)%nat with (S (i - S s)) by lia. }
  destruct b; [|done].
  destruct j as [|j]; simpl; [by rewrite Nat.sub_diag|done].
Qed.

Lemma compress_col_size (mask : list bool) (v : column) :
  size v = length mask → size (compress_col mask v) = count_true mask.
Proof. destruct v; simpl; apply compress_length. Qed.

Lemma compress_col_sublist (mask : list bool) (v : column) :
  col_sublist (compress_col mask v) v.
Proof. destruct v; simpl; apply compress_sublist. Qed.

Lemma wf_df_nrows n df : wf_df n df → df ≠ [] → nrows df = n.
Proof. by intros [|[k c] ? ? ?]. Qed.

Lemma mask_items_ok (df : DataFrame) (mask : list bool) :
  wf_df (length mask) df → mask_items df mask = Ok (select_rows mask df).
Proof.
  induction 1 as [|[k v] df Hv _ IH]; simpl in *; [done|].
  unfold getitem_mask. rewrite bool_decide_eq_true_2 by done. simpl.
  by rewrite IH.
Qed.

Lemma select_rows_wf (df : DataFrame) (mask : list bool) :
  wf_df (length mask) df → wf_df (count_true mask) (select_rows mask df).
Proof.
  unfold wf_df, select_rows. rewrite Forall_fmap. intros Hwf.
  eapply Forall_impl; [exact Hwf|].
  intros [k v] ?; simpl in *. by apply compress_col_size.
Qed.

Lemma mk_DataFrame_ok n (d : list (string * column)) :
  wf_df n d → mk_DataFrame d = Ok d.
Proof.
  intros Hwf. unfold mk_DataFrame. rewrite bool_decide_eq_true_2; [done|].
  destruct d as [|[k c] d]; [constructor|].
  rewrite (wf_df_nrows n) by done. exact Hwf.
Qed.

Lemma filter_rows_ok (df : DataFrame) (mask : list bool) :
  wf_df (length mask) df → filter_rows df mask = Ok (select_rows mask df).
Proof.
  intros Hwf. unfold filter_rows. rewrite mask_items_ok by done. simpl.
  by apply (mk_DataFrame_ok (count_true mask)), select_rows_wf.
Qed.

Lemma select_rows_columns (df : DataFrame) (mask : list bool) :
  columns (select_rows mask df) = columns df.
Proof.
  unfold columns, select_rows. rewrite <-list_fmap_compose.
  by apply list_fmap_ext; intros ? [??].
Qed.

Lemma compress_fmap {A B} (f : A → B) (mask : list bool) (l : list A) :
  compress mask (f <$> l) = f <$> compress mask l.
Proof.
  revert l. induction mask as [|b mask IH]; intros [|x l]; simpl; [done..|].
  destruct b; simpl; by rewrite IH.
Qed.

(** ** Grouping *)

Lemma zip_with_fmap_same {A B C D} (f : B → C → D) (g : A → B) (h : A → C)
    (l : list A) :
  zip_with f (g <$> l) (h <$> l) = (λ x, f (g x) (h x)) <$> l.
Proof. induction l; simpl; by f_equal. Qed.

Section grouping.
Context (g : GroupBy.t).
Implicit Types (k : key) (i j : nat).

Lemma unique_keys_perm : GroupBy.unique_keys g ≡ₚ remove_dups (GroupBy.keys g).
Proof. apply merge_sort_Permutation. Qed.

Lemma elem_of_unique_keys k :
  k ∈ GroupBy.unique_keys g ↔ k ∈ GroupBy.keys g.
Proof. by rewrite unique_keys_perm, elem_of_remove_dups. Qed.

Lemma unique_keys_NoDup : NoDup (GroupBy.unique_keys g).
Proof. rewrite unique_keys_perm. apply NoDup_remove_dups. Qed.

Lemma group_index_lookup k j :
  GroupBy.group_index g k = Some j ↔ GroupBy.unique_keys g !! j = Some k.
Proof.
  unfold GroupBy.group_index. split.
  - intros Hj. apply fmap_Some in Hj as ([j' k'] & Hf & ->).
    apply list_find_Some in Hf as (? & -> & _). done.
  - intros Hj.
    destruct (list_find (λ k', k' = k) (GroupBy.unique_keys g))
      as [[j' k']|] eqn:Hf; simpl.
    + apply list_find_Some in Hf as (Hj' & -> & _).
      f_equal. by eapply NoDup_lookup; [apply unique_keys_NoDup|..].
    + apply list_find_None in Hf.
      apply Forall_lookup_1 with (i := j) (x := k) in Hf; done.
Qed.

Lemma group_index_is_Some k :
  k ∈ GroupBy.keys g → ∃ j, GroupBy.group_index g k = Some j.
Proof.
  intros Hk. apply elem_of_unique_keys, list_elem_of_lookup_1 in Hk as [j Hj].
  exists j. by apply group_index_lookup.
Qed.

Lemma members_length k : length (GroupBy.members g k) = length (GroupBy.keys g).
Proof. apply length_fmap. Qed.

Lemma members_lookup k i :
  GroupBy.members g k !! i = Some true ↔ GroupBy.keys g !! i = Some k.
Proof.
  unfold GroupBy.members. rewrite list_lookup_fmap.
  destruct (GroupBy.keys g !! i) as [k'|]; simpl; [|done].
  case_bool_decide; naive_solver.
Qed.

(** The number of rows of a group is the length of its segment of any
    column of the table. *)
Lemma segment_length {A} k (xs : list A) :
  length xs = length (GroupBy.keys g) →
  length (GroupBy.segment g k xs) = GroupBy.count g k.
Proof.
  intros Hlen. unfold GroupBy.count, GroupBy.segment.
  rewrite !compress_length; by rewrite ?members_length.
Qed.

Lemma segment_fmap {A B} (f : A → B) k (xs : list A) :
  GroupBy.segment g k (f <$> xs) = f <$> GroupBy.segment g k xs.
Proof. apply compress_fmap. Qed.

(** A key that occurs in the table has at least one row. *)
Lemma count_pos k : k ∈ GroupBy.keys g → (0 < GroupBy.count g k)%nat.
Proof.
  intros Hk. unfold GroupBy.count, GroupBy.segment, GroupBy.members.
  induction (GroupBy.keys g) as [|k' ks IH]; [by apply elem_of_nil in Hk|].
  simpl. case_bool_decide; simpl; [lia|].
  apply IH. by apply elem_of_cons in Hk as [->|].
Qed.

(** Broadcasting a per-group array that is given by a function of the
    key yields that function of every row's key. *)
Lemma broadcast_fmap {A} (f : key → A) :
  GroupBy.broadcast g (f <$> GroupBy.unique_keys g)
  = Ok (f <$> GroupBy.keys g).
Proof.
  unfold GroupBy.broadcast, GroupBy.ngroups.
  rewrite bool_decide_eq_true_2 by apply length_fmap.
  replace (mapM _ (GroupBy.keys g)) with (Some (f <$> GroupBy.keys g));
    [done|].
  symmetry. apply mapM_Some, Forall2_fmap_r, Forall_Forall2_diag.
  apply Forall_forall. intros k Hk.
  destruct (group_index_is_Some k Hk) as [j Hj]. rewrite Hj. simpl.
  apply group_index_lookup in Hj. by rewrite list_lookup_fmap, Hj.
Qed.

(** In general, row [i] receives the value of the group of its key. *)
Lemma broadcast_lookup {A} (values out : list A) i k :
  GroupBy.broadcast g values = Ok out →
  GroupBy.keys g !! i = Some k →
  ∃ j, GroupBy.unique_keys g !! j = Some k ∧ out !! i = values !! j
       ∧ is_Some (values !! j).
Proof.
  unfold GroupBy.broadcast. case_bool_decide as Hlen; [|done].
  destruct (mapM _ _) as [out'|] eqn:Hm; [|done]. intros [= <-] Hi.
  apply mapM_Some in Hm.
  destruct (Forall2_lookup_l _ _ _ _ _ Hm Hi) as (x & Hx & Hk).
  destruct (GroupBy.group_index g k) as [j|] eqn:Hj; [|done]. simpl in Hk.
  exists j. apply group_index_lookup in Hj. by rewrite Hx, Hk.
Qed.

Lemma broadcast_length {A} (values out : list A) :
  GroupBy.broadcast g values = Ok out → length out = length (GroupBy.keys g).
Proof.
  unfold GroupBy.broadcast. case_bool_decide as Hlen; [|done].
  destruct (mapM _ _) as [out'|] eqn:Hm; [|done]. intros [= <-].
  apply mapM_Some in Hm. symmetry. by eapply Forall2_length.
Qed.

Lemma broadcast_ok {A} (values : list A) :
  length values = GroupBy.ngroups g → is_ok (GroupBy.broadcast g values).
Proof.
  intros Hlen. unfold GroupBy.broadcast.
  rewrite bool_decide_eq_true_2 by done.
  destruct (mapM _ _) as [out'|] eqn:Hm; [done|].
  assert (is_Some (mapM (λ k, j ← GroupBy.group_index g k; values !! j)
                        (GroupBy.keys g))) as [? Hs]; [|congruence].
  apply mapM_is_Some, Forall_forall. intros k Hk. simpl.
  destruct (group_index_is_Some k Hk) as [j Hj]. rewrite Hj. simpl.
  apply lookup_lt_is_Some. rewrite Hlen.
  apply group_index_lookup in Hj. by eapply lookup_lt_Some.
Qed.

End grouping.

(** *** Groups partition the rows *)

Section partition.
Context {A : Type}.
Implicit Types (k : key) (ks keys : list key) (xs : list A).

Lemma segments_cons_other ks k0 keys x xs :
  k0 ∉ ks → segments ks (k0 :: keys) (x :: xs) = segments ks keys xs.
Proof.
  intros Hk0. unfold segments. apply Forall_fmap_ext_1.
  apply Forall_forall. intros k Hk. simpl.
  rewrite bool_decide_eq_false_2; [done|]. by intros ->.
Qed.

Lemma segments_cons_perm ks k0 keys x xs :
  NoDup ks → k0 ∈ ks →
  concat (segments ks (k0 :: keys) (x :: xs))
  ≡ₚ x :: concat (segments ks keys xs).
Proof.
  induction 1 as [|k ks Hk Hnd IH]; intros Hin; [by apply elem_of_nil in Hin|].
  destruct (decide (k0 = k)) as [->|Hne].
  - change (segments (k :: ks) ?a ?b)
      with (segments [k] a b ++ segments ks a b).
    rewrite !concat_app, (segments_cons_other ks) by done.
    simpl. by rewrite bool_decide_eq_true_2.
  - apply elem_of_cons in Hin as [?|Hin]; [done|].
    change (segments (k :: ks) ?a ?b)
      with (segments [k] a b ++ segments ks a b).
    rewrite !concat_app, IH by done. simpl.
    rewrite bool_decide_eq_false_2 by done.
    rewrite !app_nil_r. by rewrite Permutation_middle.
Qed.

Lemma segments_nil ks : concat (segments ks [] (@nil A)) = [].
Proof. induction ks; simpl; auto. Qed.

Lemma segments_perm ks keys xs :
  NoDup ks → (∀ k, k ∈ keys → k ∈ ks) → length xs = length keys →
  concat (segments ks keys xs) ≡ₚ xs.
Proof.
  intros Hnd. revert xs.
  induction keys as [|k0 keys IH]; intros [|x xs] Hsub Hlen; simplify_eq/=.
  - by rewrite segments_nil.
  - rewrite segments_cons_perm; [|done|apply Hsub; left].
    constructor. apply IH; [|done]. intros k Hk. apply Hsub. by right.
Qed.
End partition.

Lemma in_group_exists_unique (g : GroupBy.t) (i : nat) :
  (i < length (GroupBy.keys g))%nat →
  ∃ j, in_group g i j ∧ ∀ j', in_group g i j' → j' = j.
Proof.
  intros Hi. apply lookup_lt_is_Some in Hi as [k Hk].
  destruct (group_index_is_Some g k) as [j Hj];
    [by eapply list_elem_of_lookup_2|].
  apply group_index_lookup in Hj. exists j. split; [by exists k|].
  intros j' (k' & Hj' & Hk'). simplify_eq.
  by eapply NoDup_lookup; [apply unique_keys_NoDup|..].
Qed.

Lemma group_segments_perm {A} (g : GroupBy.t) (xs : list A) :
  length xs = length (GroupBy.keys g) →
  concat ((λ k, GroupBy.segment g k xs) <$> GroupBy.unique_keys g) ≡ₚ xs.
Proof.
  intros Hlen.
  apply (segments_perm (GroupBy.unique_keys g) (GroupBy.keys g) xs);
    [apply unique_keys_NoDup| |done].
  intros k. by rewrite elem_of_unique_keys.
Qed.

(** *** Key tuples of the rows *)

Lemma foldr_zip_cons_length (n : nat) (cs : list (list Z)) :
  Forall (λ c, length c = n) cs →
  length (foldr (zip_with cons) (replicate n ([] : key)) cs) = n.
Proof.
  induction 1 as [|c cs Hc _ IH]; cbn [foldr].
  - apply length_replicate.
  - rewrite length_zip_with, IH. lia.
Qed.

Lemma row_keys_length (cols : list (list Z)) (ks : list key) (c : list Z) :
  GroupBy.row_keys cols = Ok ks → c ∈ cols → length ks = length c.
Proof.
  unfold GroupBy.row_keys. destruct cols as [|c0 cols]; [done|].
  case_bool_decide as Hall; [|done]. intros [= <-] Hc.
  rewrite (proj1 (Forall_forall _ _) Hall c Hc).
  by apply (foldr_zip_cons_length (length c0) (c0 :: cols)).
Qed.

Lemma foldr_zip_cons_lookup (n i : nat) (cs : list (list Z)) (k : key) :
  foldr (zip_with cons) (replicate n ([] : key)) cs !! i = Some k →
  Forall2 (λ c x, c !! i = Some x) cs k.
Proof.
  revert k. induction cs as [|c cs IH]; intros k; cbn [foldr].
  - intros [-> _]%lookup_replicate. constructor.
  - intros (x & k' & -> & Hx & Hk')%lookup_zip_with_Some.
    constructor; [done|by apply IH].
Qed.

(** The key tuple of a row consists of the row's entries in the key
    columns. *)
Lemma row_keys_lookup (cols : list (list Z)) (ks : list key) (i : nat) (k : key) :
  GroupBy.row_keys cols = Ok ks → ks !! i = Some k →
  Forall2 (λ c x, c !! i = Some x) cols k.
Proof.
  unfold GroupBy.row_keys. destruct cols as [|c0 cols]; [done|].
  case_bool_decide as Hall; [|done]. intros [= <-].
  apply (foldr_zip_cons_lookup (length c0) i (c0 :: cols)).
Qed.

Lemma row_keys_two (pu do : list Z) :
  length pu = length do →
  GroupBy.row_keys [pu; do] = Ok (zip_with (λ a b, [a; b]) pu do).
Proof.
  intros Hlen. unfold GroupBy.row_keys.
  rewrite bool_decide_eq_true_2 by (repeat constructor; done).
  f_equal. simpl. revert do Hlen.
  induction pu as [|a pu IH]; intros [|b do] Hlen; simplify_eq/=; [done|].
  f_equal. by apply IH.
Qed.

(** Every grouping of a table succeeds exactly when the key columns are
    given and of one length, and then has one key per row. *)
Lemma make_ok (cols : list (list Z)) (n : nat) :
  cols ≠ [] → Forall (λ c, length c = n) cols →
  ∃ g, GroupBy.make cols = Ok g ∧ length (GroupBy.keys g) = n.
Proof.
  intros Hne Hall. unfold GroupBy.make.
  destruct (GroupBy.row_keys cols) as [ks|e] eqn:Hks; simpl.
  - eexists; split; [done|]. simpl.
    destruct cols as [|c cols]; [done|].
    rewrite (row_keys_length _ _ c Hks) by left.
    by apply Forall_cons in Hall as [? _].
  - exfalso. unfold GroupBy.row_keys in Hks.
    destruct cols as [|c cols]; [done|].
    rewrite bool_decide_eq_true_2 in Hks; [done|].
    apply Forall_cons in Hall as [Hc Hall].
    constructor; [done|]. eapply Forall_impl; [exact Hall|].
    simpl. intros ? ->. done.
Qed.

(** ** Table reads and updates *)

Lemma df_get_dict_set_eq (df : DataFrame) (name : string) (c : column) :
  df_get (dict_set df name c) name = Ok c.
Proof.
  induction df as [|[k c'] df IH]; simpl.
  - by rewrite bool_decide_eq_true_2.
  - case_bool_decide as Hk; simpl.
    + by rewrite bool_decide_eq_true_2.
    + by rewrite bool_decide_eq_false_2.
Qed.

Lemma df_get_dict_set_ne (df : DataFrame) (name name' : string) (c : column) :
  name ≠ name' → df_get (dict_set df name c) name' = df_get df name'.
Proof.
  intros Hne. induction df as [|[k c'] df IH]; simpl.
  - by rewrite bool_decide_eq_false_2.
  - case_bool_decide as Hk; simpl; [subst k|by rewrite IH].
    by rewrite !bool_decide_eq_false_2.
Qed.

Lemma dict_set_wf (n : nat) (df : DataFrame) (name : string) (c : column) :
  wf_df n df → size c = n → wf_df n (dict_set df name c).
Proof.
  intros Hwf Hc. induction Hwf as [|[k c'] df Hc' Hwf IH]; simpl.
  - by repeat constructor.
  - case_bool_decide; by constructor.
Qed.

Lemma df_set_ok (n : nat) (df : DataFrame) (name : string) (c : column) :
  wf_df n df → size c = n → df_set df name c = Ok (dict_set df name c).
Proof.
  intros Hwf Hc. unfold df_set. destruct df as [|kc df]; [done|].
  by rewrite (wf_df_nrows n), bool_decide_eq_true_2.
Qed.

Lemma df_get_size (n : nat) (df : DataFrame) (name : string) (c : column) :
  wf_df n df → df_get df name = Ok c → size c = n.
Proof.
  induction 1 as [|[k c'] df Hc' Hwf IH]; simpl; [done|].
  case_bool_decide; [by intros [= <-]|done].
Qed.

Lemma dict_set_columns_old (df : DataFrame) (name : string) (c : column) :
  columns df ⊆ columns (dict_set df name c).
Proof.
  unfold columns. intros k. induction df as [|[k' c'] df IH]; simpl.
  - intros Hk. by apply elem_of_nil in Hk.
  - case_bool_decide; simpl; [done|].
    rewrite !elem_of_cons. intros [->|Hk]; [by left|right; by apply IH].
Qed.

Lemma dict_set_columns_new (df : DataFrame) (name : string) (c : column) :
  name ∈ columns (dict_set df name c).
Proof.
  unfold columns. induction df as [|[k' c'] df IH]; simpl; [left|].
  case_bool_decide; simpl; [subst; left|by right].
Qed.

(** ** The pipeline cells in closed form *)

Section pipeline.
Context (data : DataFrame) (pu do : list Z) (fare : list Qc) (n : nat).
Hypothesis Hwf : wf_df n data.
Hypothesis Hpu : df_get data "PULocationID" = Ok (Int64 pu).
Hypothesis Hdo : df_get data "DOLocationID" = Ok (Int64 do).
Hypothesis Hfare : df_get data "fare_amount" = Ok (Float64 fare).

Let byloc : GroupBy.t :=
  {| GroupBy.keys := zip_with (λ a b, [a; b]) pu do |}.
Let uk := GroupBy.unique_keys byloc.
Let mean_col := Float64 (group_mean byloc fare <$> GroupBy.keys byloc).
Let std_col := Float64 (group_sf byloc fare <$> GroupBy.keys byloc).
Let z_col :=
  Float64 (zip_with (fare_z_of byloc fare) fare (GroupBy.keys byloc)).
Let data1 := dict_set (dict_set data "fare_mean" mean_col) "fare_std" std_col.

Lemma pu_length : length pu = n.
Proof. exact (df_get_size _ _ _ _ Hwf Hpu). Qed.
Lemma do_length : length do = n.
Proof. exact (df_get_size _ _ _ _ Hwf Hdo). Qed.
Lemma fare_length : length fare = n.
Proof. exact (df_get_size _ _ _ _ Hwf Hfare). Qed.

Lemma keys_length : length (GroupBy.keys byloc) = n.
Proof. simpl. rewrite length_zip_with, pu_length, do_length. lia. Qed.

Lemma cell_groupby_ok : cell_groupby data = Ok byloc.
Proof.
  unfold cell_groupby, GroupBy.make. rewrite Hpu, Hdo. cbn [bind as_int].
  rewrite row_keys_two; [done|]. by rewrite pu_length, do_length.
Qed.

Lemma cell_mf_ok : cell_mf byloc data = Ok (group_mean byloc fare <$> uk).
Proof.
  unfold cell_mf, GroupBy.mean. rewrite Hfare. simpl.
  rewrite bool_decide_eq_true_2; [done|].
  by rewrite fare_length, <-keys_length.
Qed.

Lemma cell_sf_ok :
  cell_sf byloc data (cell_size byloc) (group_mean byloc fare <$> uk)
  = Ok (group_sf byloc fare <$> uk).
Proof.
  unfold cell_sf, GroupBy.sum, cell_size, GroupBy.size, to_float, binop.
  rewrite Hfare. simpl.
  rewrite bool_decide_eq_true_2
    by (by rewrite length_fmap, fare_length, <-keys_length).
  simpl. rewrite bool_decide_eq_true_2 by (by rewrite !length_fmap).
  simpl. rewrite bool_decide_eq_true_2
    by (by rewrite length_zip_with, !length_fmap, Nat.min_id).
  f_equal. fold uk. rewrite <-!list_fmap_compose.
  by rewrite !zip_with_fmap_same.
Qed.

Lemma cell_broadcast_ok :
  cell_broadcast byloc (group_mean byloc fare <$> uk)
    (group_sf byloc fare <$> uk) data
  = Ok data1.
Proof.
  unfold cell_broadcast. subst uk. rewrite !broadcast_fmap.
  assert (∀ f : key → Qc, size (Float64 (f <$> GroupBy.keys byloc)) = n)
    as Hsize by (intros f; cbn [size]; by rewrite length_fmap, keys_length).
  cbn [bind]. rewrite (df_set_ok n) by done.
  cbn [bind]. rewrite (df_set_ok n); [done| |done].
  by apply dict_set_wf.
Qed.

Lemma data1_wf : wf_df n data1.
Proof.
  unfold data1, mean_col, std_col.
  repeat apply dict_set_wf; try done;
    cbn [size]; by rewrite length_fmap, keys_length.
Qed.

Lemma cell_fare_z_ok :
  cell_fare_z data1 = Ok (dict_set data1 "fare_z" z_col).
Proof.
  unfold cell_fare_z, data1.
  repeat (first [ rewrite df_get_dict_set_eq
                | rewrite df_get_dict_set_ne by done
                | rewrite Hfare ];
          cbn [bind as_float mean_col std_col]).
  pose proof fare_length as Hfl. pose proof keys_length as Hkl.
  unfold binop.
  rewrite bool_decide_eq_true_2 by (rewrite length_fmap; congruence).
  cbn [bind]. rewrite bool_decide_eq_true_2
    by (rewrite length_zip_with, !length_fmap; lia).
  cbn [bind]. fold data1.
  assert (∀ (xs : list Qc) (ks : list key) (m s : key → Qc),
      zip_with Qcdiv (zip_with Qcminus xs (m <$> ks)) ((λ x, x + 1) <$> (s <$> ks))
      = zip_with (λ x k, (x - m k) / (s k + 1)) xs ks) as ->.
  { induction xs as [|x xs IH]; intros [|k ks] m s; simpl; [done..|].
    by rewrite IH. }
  apply (df_set_ok n); [apply data1_wf|].
  unfold z_col. cbn [size]. rewrite length_zip_with. lia.
Qed.

(** The group-by, aggregation, broadcast and z-score cells succeed on a
    well-formed ride table and extend it by the three derived columns. *)
Lemma zscore_cells_ok :
  zscore_cells data = Ok (dict_set data1 "fare_z" z_col).
Proof.
  unfold zscore_cells. rewrite cell_groupby_ok. simpl.
  rewrite cell_mf_ok. simpl. rewrite cell_sf_ok. simpl.
  rewrite cell_broadcast_ok. simpl. apply cell_fare_z_ok.
Qed.

End pipeline.



(** ** [argmax] *)

Lemma argmax_from_spec (l p : list Qc) (bi : nat) (b : Qc) :
  p !! bi = Some b →
  (∀ j y, p !! j = Some y → y <= b) →
  (∀ j y, (j < bi)%nat → p !! j = Some y → y < b) →
  ∃ m, (p ++ l) !! argmax_from bi b (length p) l = Some m
       ∧ (∀ j y, (p ++ l) !! j = Some y → y <= m)
       ∧ (∀ j y, (j < argmax_from bi b (length p) l)%nat →
                 (p ++ l) !! j = Some y → y < m).
Proof.
  revert p bi b. induction l as [|x l IH]; intros p bi b Hb Hle Hlt; simpl.
  - rewrite app_nil_r. eauto.
  - assert (length (p ++ [x]) = S (length p)) as Hlen
      by (rewrite length_app; simpl; lia).
    rewrite (cons_middle x p l), app_assoc, <-Hlen.
    case_bool_decide as Hx.
    + apply IH.
      * by rewrite lookup_app_r, Nat.sub_diag by lia.
      * intros j y Hj. apply lookup_app_Some in Hj as [Hj|[_ Hj]].
        -- apply Qclt_le_weak. eapply Qcle_lt_trans; [by eapply Hle|done].
        -- apply list_lookup_singleton_Some in Hj as [_ ->]. apply Qcle_refl.
      * intros j y Hj Hy. rewrite lookup_app_l in Hy by done.
        eapply Qcle_lt_trans; [by eapply Hle|done].
    + apply Qcnot_lt_le in Hx. apply IH.
      * rewrite lookup_app_l; [done|]. by eapply lookup_lt_Some.
      * intros j y Hj. apply lookup_app_Some in Hj as [Hj|[_ Hj]]; [eauto|].
        by apply list_lookup_singleton_Some in Hj as [_ ->].
      * intros j y Hj Hy. apply (Hlt j y Hj).
        rewrite lookup_app_l in Hy; [done|].
        apply lookup_lt_Some in Hb. lia.
Qed.

(** [argmax] of a non-empty column is the first position of its maximum:
    the entry there bounds every entry, and strictly bounds the entries
    before it. *)
Lemma argmax_spec (l : list Qc) :
  l ≠ [] →
  ∃ i m, argmax l = Ok i ∧ l !! i = Some m
         ∧ (∀ j y, l !! j = Some y → y <= m)
         ∧ (∀ j y, (j < i)%nat → l !! j = Some y → y < m).
Proof.
  destruct l as [|x l]; [done|]. intros _. simpl.
  destruct (argmax_from_spec l [x] 0 x) as (m & Hm & Hle & Hlt).
  - done.
  - intros [|j] y [= <-]. apply Qcle_refl.
  - intros j y Hj. lia.
  - exists (argmax_from 0 x 1 l), m. eauto.
Qed.

(** ** Moments *)

Lemma two_groups_ride_table :
  ride_table 5 two_groups [1; 1; 1; 2; 2]%Z [1; 1; 1; 3; 3]%Z
    [Z2Qc 10; Z2Qc 10; Z2Qc 10; Z2Qc 0; Z2Qc 20].
Proof. repeat split; repeat constructor. Qed.

Lemma group_mean_moment (g : GroupBy.t) (fare : list Qc) (k : key) :
  length fare = length (GroupBy.keys g) →
  group_mean g fare k = moment1 (GroupBy.segment g k fare).
Proof. intros Hlen. unfold group_mean, moment1. by rewrite segment_length. Qed.

Lemma group_sf_moments (g : GroupBy.t) (fare : list Qc) (k : key) :
  length fare = length (GroupBy.keys g) →
  group_sf g fare k
  = moment2 (GroupBy.segment g k fare)
    - square (moment1 (GroupBy.segment g k fare)).
Proof.
  intros Hlen. unfold group_sf, moment2.
  by rewrite group_mean_moment, segment_fmap, segment_length.
Qed.

(** *** In exact arithmetic the two-moment variance is never negative *)

Lemma Z2Qc_S (n : nat) : Z2Qc (Z.of_nat (S n)) = Z2Qc (Z.of_nat n) + 1.
Proof.
  apply Qc_is_canon. unfold Z2Qc, Qcplus, Q2Qc. cbn [this].
  rewrite !Qred_correct, Nat2Z.inj_succ. unfold Z.succ.
  by rewrite inject_Z_plus.
Qed.

Lemma Qc_square_nonneg (x : Qc) : 0 <= x * x.
Proof. qc2q. generalize (this x). intros q. nra. Qed.

Lemma cross_bound (a : Qc) (xs : list Qc) :
  a * sumQ xs + a * sumQ xs
  <= Z2Qc (Z.of_nat (length xs)) * (a * a) + sumQ (square <$> xs).
Proof.
  induction xs as [|x xs IH].
  - cbn [length fmap list_fmap sumQ foldr]. change (Z2Qc (Z.of_nat 0)) with 0.
    qc2q. nra.
  - cbn [length fmap list_fmap]. change (sumQ (?y :: ?l)) with (y + sumQ l).
    rewrite Z2Qc_S. change (square x) with (x * x).
    pose proof (Qc_square_nonneg (a - x)) as Hsq. revert IH Hsq.
    generalize (sumQ xs) (sumQ (square <$> xs)) (Z2Qc (Z.of_nat (length xs))).
    intros s1 s2 n. qc2q. nra.
Qed.

Lemma sum_square_bound (xs : list Qc) :
  sumQ xs * sumQ xs <= Z2Qc (Z.of_nat (length xs)) * sumQ (square <$> xs).
Proof.
  induction xs as [|x xs IH].
  - cbn [length fmap list_fmap sumQ foldr]. qc2q. nra.
  - pose proof (cross_bound x xs) as Hc. revert IH Hc.
    cbn [length fmap list_fmap]. change (sumQ (?y :: ?l)) with (y + sumQ l).
    rewrite Z2Qc_S. change (square x) with (x * x).
    generalize (sumQ xs) (sumQ (square <$> xs)) (Z2Qc (Z.of_nat (length xs))).
    intros s1 s2 n. qc2q. nra.
Qed.

Lemma variance_nonneg (xs : list Qc) :
  0 <= moment2 xs - square (moment1 xs).
Proof.
  unfold moment1, moment2.
  pose proof (sum_square_bound xs) as Hb. revert Hb.
  generalize (sumQ xs) (sumQ (square <$> xs)) (Z2Qc (Z.of_nat (length xs))).
  intros s1 s2 n Hb. unfold square.
  destruct (decide (n = 0)) as [->|Hn].
  - unfold Qcdiv. change (/ 0) with 0. qc2q. nra.
  - assert (s2 / n - s1 / n * (s1 / n)
            = (n * s2 - s1 * s1) * (/ n * / n)) as -> by (by field).
    revert Hb. generalize (/ n). intros i. qc2q. nra.
Qed.

(** The value broadcast into ['fare_std'] is never negative, so clamping
    it at zero would not change it. *)
Lemma group_sf_nonneg (g : GroupBy.t) (fare : list Qc) (k : key) :
  length fare = length (GroupBy.keys g) →
  0 <= group_sf g fare k ∧ clamp0 (group_sf g fare k) = group_sf g fare k.
Proof.
  intros Hlen. rewrite group_sf_moments by done.
  pose proof (variance_nonneg (GroupBy.segment g k fare)) as Hv.
  split; [done|]. unfold clamp0. rewrite bool_decide_eq_false_2; [done|].
  by apply Qcle_not_lt.
Qed.

(** Row by row, the z-score column is computed from the three columns
    ['fare_amount'], ['fare_mean'] and ['fare_std'] by
    [(x - mean) / (std + 1)]. *)
Lemma fare_z_formula (n : nat) (data : DataFrame)
    (pu do : list Z) (fare : list Qc) :
  ride_table n data pu do fare →
  ∃ data' mean std z,
    zscore_cells data = Ok data'
    ∧ df_get data' "fare_mean" = Ok (Float64 mean)
    ∧ df_get data' "fare_std" = Ok (Float64 std)
    ∧ df_get data' "fare_z" = Ok (Float64 z)
    ∧ length z = n
    ∧ ∀ i x m s, fare !! i = Some x → mean !! i = Some m →
        std !! i = Some s → z !! i = Some ((x - m) / (s + 1)).
Proof.
  intros (Hwf & Hpu & Hdo & Hfare).
  pose proof (keys_length data pu do n Hwf Hpu Hdo) as Hkl.
  pose proof (fare_length data fare n Hwf Hfare) as Hfl.
  set (byloc := {| GroupBy.keys := zip_with (λ a b, [a; b]) pu do |}) in *.
  eexists. exists (group_mean byloc fare <$> GroupBy.keys byloc),
    (group_sf byloc fare <$> GroupBy.keys byloc),
    (zip_with (fare_z_of byloc fare) fare (GroupBy.keys byloc)).
  split_and!.
  - by apply (zscore_cells_ok data pu do fare n).
  - do 2 (rewrite df_get_dict_set_ne by done). apply df_get_dict_set_eq.
  - rewrite df_get_dict_set_ne by done. apply df_get_dict_set_eq.
  - apply df_get_dict_set_eq.
  - rewrite length_zip_with. lia.
  - intros i x m s Hx. rewrite !list_lookup_fmap, lookup_zip_with, Hx.
    destruct (GroupBy.keys byloc !! i) as [k|]; [|done].
    cbn [fmap option_fmap option_map mbind option_bind].
    by intros [= <-] [= <-].
Qed.

(** ** Filtering on the server: nothing registered is overwritten *)

Lemma deref_prefix (st st' : Server.store) (df : Server.table) (data : DataFrame) :
  st `prefix_of` st' → Server.deref st df = Some data →
  Server.deref st' df = Some data.
Proof.
  intros Hpre. unfold Server.deref. intros Hd.
  apply mapM_Some in Hd. apply mapM_Some.
  eapply Forall2_impl; [exact Hd|]. intros [k h] [k' c] Hh; simpl in *.
  apply fmap_Some in Hh as (c' & Hc' & [= <- <-]).
  apply fmap_Some. exists c. split; [|done].
  by apply (prefix_lookup_Some st).
Qed.

Lemma server_mask_items_ok (mask : list bool) (m : Server.handle)
    (df : Server.table) (st : Server.store) (data : DataFrame) :
  st !! m = Some (Bool mask) →
  Server.deref st df = Some data →
  wf_df (length mask) data →
  ∃ st' df',
    Server.mask_items st df m = Ok (st', df')
    ∧ st `prefix_of` st'
    ∧ Forall (λ kh, (length st ≤ kh.2)%nat) df'
    ∧ Server.deref st' df' = Some (select_rows mask data).
Proof.
  revert st data. induction df as [|[k v] df IH]; intros st data Hm Hd Hwf.
  - injection Hd as <-. exists st, []. by split_and!.
  - unfold Server.deref in Hd. apply mapM_Some in Hd.
    apply Forall2_cons_inv_l in Hd as ([k' c] & data' & Hc & Hd & ->).
    simpl in Hc. apply fmap_Some in Hc as (c0 & Hv & [= -> ->]).
    apply Forall_cons in Hwf as [Hsz Hwf]. simpl in Hsz.
    apply mapM_Some in Hd.
    set (st1 := st ++ [compress_col mask c0]).
    assert (st `prefix_of` st1) as Hpre1 by apply prefix_app_r, reflexivity.
    destruct (IH st1 data') as (st2 & df2 & Hrun & Hpre2 & Hfresh & Hd2).
    { by apply (prefix_lookup_Some _ _ _ _ Hm). }
    { by apply (deref_prefix st). }
    { done. }
    exists st2, ((k, length st) :: df2).
    split_and!.
    + cbn [Server.mask_items]. unfold Server.getitem_mask, Server.read.
      rewrite Hv, Hm. cbn [of_option bind]. unfold getitem_mask.
      rewrite bool_decide_eq_true_2 by done. cbn [bind Server.alloc].
      fold st1. by rewrite Hrun.
    + by etrans.
    + constructor; [done|]. eapply Forall_impl; [exact Hfresh|].
      intros [??] ?; simpl in *. unfold st1 in *.
      rewrite length_app in *. simpl in *. lia.
    + unfold Server.deref in *. cbn [mapM fst snd].
      assert (st2 !! length st = Some (compress_col mask c0)) as ->.
      { apply (prefix_lookup_Some st1); [|done].
        unfold st1. by rewrite lookup_app_r, Nat.sub_diag by lia. }
      cbn [fmap option_fmap option_map mbind option_bind].
      by rewrite Hd2.
Qed.

Lemma server_filter_rows_ok (mask : list bool) (m : Server.handle)
    (df : Server.table) (st : Server.store) (data : DataFrame) :
  st !! m = Some (Bool mask) →
  Server.deref st df = Some data →
  wf_df (length mask) data →
  ∃ st' df',
    Server.filter_rows st df m = Ok (st', df')
    ∧ st `prefix_of` st'
    ∧ Forall (λ kh, (length st ≤ kh.2)%nat) df'
    ∧ Server.deref st' df' = Some (select_rows mask data).
Proof.
  intros Hm Hd Hwf.
  destruct (server_mask_items_ok mask m df st data Hm Hd Hwf)
    as (st' & df' & Hrun & Hpre & Hfresh & Hd').
  exists st', df'. split_and!; try done.
  unfold Server.filter_rows. rewrite Hrun. cbn [bind]. rewrite Hd'.
  cbn [of_option bind].
  by rewrite (mk_DataFrame_ok (count_true mask)) by by apply select_rows_wf.
Qed.

(** ** The two filters *)

Lemma as_float_length (c : column) (xs : list Qc) :
  as_float c = Ok xs → length xs = size c.
Proof. destruct c; intros [= <-]; simpl; by rewrite ?length_fmap. Qed.

Lemma non_neg_mask_length (n : nat) (data : DataFrame) (mask : list bool) :
  wf_df n data → non_neg_mask data = Ok mask → length mask = n.
Proof.
  intros Hwf. unfold non_neg_mask.
  destruct (df_get data "fare_amount") as [c|] eqn:Hc; [|done]. cbn [bind].
  destruct (as_float c) as [xs|] eqn:Hxs; [|done]. cbn [bind].
  intros [= <-]. rewrite length_fmap, (as_float_length c) by done.
  by eapply df_get_size.
Qed.

Lemma exorbitant_mask_length (n : nat) (data : DataFrame) (mask : list bool) :
  wf_df n data → exorbitant_mask data = Ok mask → length mask = n.
Proof.
  intros Hwf. unfold exorbitant_mask.
  destruct (df_get data "fare_z") as [c|] eqn:Hc; [|done]. cbn [bind].
  destruct (as_float c) as [xs|] eqn:Hxs; [|done]. cbn [bind].
  intros [= <-]. rewrite length_fmap, (as_float_length c) by done.
  by eapply df_get_size.
Qed.

Lemma select_rows_Forall2 (mask : list bool) (data : DataFrame) :
  Forall2 (λ kc kc', kc'.1 = kc.1 ∧ kc'.2 = compress_col mask kc.2
                     ∧ col_sublist kc'.2 kc.2)
    data (select_rows mask data).
Proof.
  unfold select_rows. apply Forall2_fmap_r, Forall_Forall2_diag, Forall_forall.
  intros [k c] _. simpl. split_and!; try done. apply compress_col_sublist.
Qed.

Example two_groups_scored_run : zscore_cells two_groups = Ok two_groups_scored.
Proof. qc_eq. Qed.

(** ** Binary64 arithmetic

    Facts about single operations on binary64 values, derived from the
    specification of the primitive operations ([SpecFloat]): dividing by
    [1.0] is exact, a finite value minus itself is [+0.0], an infinity or a
    NaN minus itself is NaN, and a square is never [-0.0]. *)

Section binary64.
Local Open Scope Z_scope.

(** The binary64 value [1.0]: mantissa [2^52], exponent [-52]. *)
Let SF_one : spec_float := S754_finite false 4503599627370496 (-52).

Lemma div_eucl_div_mod (a b : Z) : Z.div_eucl a b = (a / b, a mod b).
Proof. unfold Z.div, Z.modulo. by destruct (Z.div_eucl a b). Qed.

(** A representable mantissa and exponent: either the mantissa has the
    full 53 bits, or the exponent is the smallest one (subnormal values). *)
Lemma bounded_cases (m : positive) (e : Z) :
  bounded prec emax m e = true →
  e ≤ 971 ∧ fexp prec emax (Zpos (digits2_pos m) + e) = e
  ∧ ((Zpos (digits2_pos m) = 53 ∧ -1074 < e)
     ∨ (e = -1074 ∧ Zpos (digits2_pos m) ≤ 53)).
Proof.
  unfold bounded, canonical_mantissa. intros H.
  apply andb_true_iff in H as [Hc Hb].
  apply Z.eqb_eq in Hc. apply Z.leb_le in Hb.
  split; [exact Hb|]. split; [exact Hc|].
  unfold fexp, SpecFloat.emin, prec, emax in Hc. lia.
Qed.

Lemma shr_fexp_exact (m : positive) (e : Z) :
  fexp prec emax (Zpos (digits2_pos m) + e) = e →
  shr_fexp prec emax (Zpos m) e loc_Exact
  = ({| shr_m := Zpos m; shr_r := false; shr_s := false |}, e).
Proof.
  intros Hc. unfold shr_fexp. cbn [Zdigits2]. by rewrite Hc, Z.sub_diag.
Qed.

Lemma shr_fexp_double (m : positive) (e : Z) :
  Zpos (digits2_pos m) = 53 → -1074 < e →
  shr_fexp prec emax (Zpos m~0) (e - 1) loc_Exact
  = ({| shr_m := Zpos m; shr_r := false; shr_s := false |}, e).
Proof.
  intros Hd He. unfold shr_fexp. cbn [Zdigits2 digits2_pos].
  replace (fexp prec emax (Zpos (Pos.succ (digits2_pos m)) + (e - 1)) - (e - 1))
    with 1 by (unfold fexp, SpecFloat.emin, prec, emax; lia).
  cbn. f_equal. lia.
Qed.

Lemma binary_round_aux_exact (s : bool) (m : positive) (e : Z) :
  bounded prec emax m e = true →
  binary_round_aux prec emax s (Zpos m) e loc_Exact = S754_finite s m e.
Proof.
  intros H. destruct (bounded_cases m e H) as (Hb & Hc & _).
  unfold binary_round_aux. rewrite (shr_fexp_exact m e Hc). cbn.
  rewrite (shr_fexp_exact m e Hc). cbn.
  replace (e <=? emax - prec) with true; [done|].
  symmetry. by apply Z.leb_le.
Qed.

Lemma binary_round_aux_double (s : bool) (m : positive) (e : Z) :
  bounded prec emax m e = true →
  Zpos (digits2_pos m) = 53 → -1074 < e →
  binary_round_aux prec emax s (Zpos m~0) (e - 1) loc_Exact = S754_finite s m e.
Proof.
  intros H Hd He. destruct (bounded_cases m e H) as (Hb & Hc & _).
  unfold binary_round_aux. rewrite (shr_fexp_double m e Hd He). cbn.
  rewrite (shr_fexp_exact m e Hc). cbn.
  replace (e <=? emax - prec) with true; [done|].
  symmetry. by apply Z.leb_le.
Qed.

(** The quotient of a mantissa by the mantissa of [1.0] is exact. *)
Lemma SFdiv_core_one (m : positive) (e : Z) :
  bounded prec emax m e = true →
  SFdiv_core_binary prec emax (Zpos m) e 4503599627370496 (-52)
  = if (Zpos (digits2_pos m) =? 53) && (-1074 <? e)
    then (Zpos m~0, e - 1, loc_Exact) else (Zpos m, e, loc_Exact).
Proof.
  intros H. destruct (bounded_cases m e H) as (Hb & Hc & Hcase).
  unfold SFdiv_core_binary.
  change (Zdigits2 4503599627370496) with 53. cbn [Zdigits2].
  destruct Hcase as [[Hd He]|[He Hd]].
  - assert (He' : (fexp prec emax (Z.pos (digits2_pos m) + e - (53 + -52))
                   `min` (e - -52)) = e - 1)
      by (unfold fexp, SpecFloat.emin, prec, emax; lia).
    rewrite He'. replace (e - -52 - (e - 1)) with 53 by lia.
    rewrite Hd. replace (-1074 <? e) with true
      by (symmetry; apply Z.ltb_lt; lia).
    cbn [Z.eqb Pos.eqb andb].
    rewrite Z.shiftl_mul_pow2 by lia.
    replace (Z.pos m * 2 ^ 53) with (Z.pos m~0 * 4503599627370496) by lia.
    by rewrite div_eucl_div_mod, Z.div_mul, Z.mod_mul by lia.
  - assert (He' : (fexp prec emax (Z.pos (digits2_pos m) + e - (53 + -52))
                   `min` (e - -52)) = e)
      by (unfold fexp, SpecFloat.emin, prec, emax; lia).
    rewrite He'. replace (e - -52 - e) with 52 by lia.
    replace (-1074 <? e) with false by (symmetry; apply Z.ltb_ge; lia).
    rewrite andb_false_r.
    rewrite Z.shiftl_mul_pow2 by lia.
    replace (Z.pos m * 2 ^ 52) with (Z.pos m * 4503599627370496) by lia.
    by rewrite div_eucl_div_mod, Z.div_mul, Z.mod_mul by lia.
Qed.

Lemma SF64div_one (x : spec_float) :
  valid_binary x = true → SF64div x SF_one = x.
Proof.
  destruct x as [[]|[]| |s m e]; intros H; try reflexivity.
  cbn [SpecFloat.valid_binary] in H.
  unfold SF64div, SF_one, SFdiv. rewrite (SFdiv_core_one m e H).
  rewrite xorb_false_r.
  destruct ((Z.pos (digits2_pos m) =? 53) && (-1074 <? e)) eqn:E.
  - apply andb_true_iff in E as [E1 E2].
    apply Z.eqb_eq in E1. apply Z.ltb_lt in E2.
    by apply binary_round_aux_double.
  - by apply binary_round_aux_exact.
Qed.

Lemma SF64sub_diag (x : spec_float) :
  SF64sub x x
  = match x with
    | S754_zero _ | S754_finite _ _ _ => S754_zero false
    | _ => S754_nan
    end.
Proof.
  destruct x as [[]|[]| |s m e]; try reflexivity.
  unfold SF64sub, SFsub. rewrite Z.min_id. unfold shl_align.
  by rewrite Z.sub_diag.
Qed.

(** The result of rounding has the sign it was given: it is not the zero
    of the opposite sign. *)
Lemma binary_round_aux_sign (s : bool) (m e : Z) (l : location) :
  binary_round_aux prec emax s m e l ≠ S754_zero (negb s).
Proof.
  unfold binary_round_aux.
  destruct (shr_fexp prec emax m e l) as [mrs' e'].
  destruct (shr_fexp prec emax _ e' loc_Exact) as [mrs'' e''].
  destruct (shr_m mrs''); [|destruct (e'' <=? emax - prec)|];
    destruct s; discriminate.
Qed.

Lemma div_one (x : float) : (x / 1)%float = x.
Proof.
  apply Prim2SF_inj. rewrite div_spec.
  change (Prim2SF 1) with SF_one.
  apply SF64div_one, Prim2SF_valid.
Qed.

Lemma is_finite_spec (x : float) :
  PrimFloat.is_finite x
  = match Prim2SF x with
    | S754_zero _ | S754_finite _ _ _ => true
    | _ => false
    end.
Proof.
  unfold PrimFloat.is_finite, is_nan, is_infinity.
  rewrite !FloatAxioms.eqb_spec, abs_spec.
  change (Prim2SF infinity) with (S754_infinity false).
  by destruct (Prim2SF x) as [[]|[]| |[] m e]; cbn;
    rewrite ?Z.compare_refl, ?Pos.compare_cont_refl.
Qed.

Lemma is_nan_spec (x : float) :
  PrimFloat.is_nan x
  = match Prim2SF x with S754_nan => true | _ => false end.
Proof.
  unfold is_nan. rewrite FloatAxioms.eqb_spec.
  by destruct (Prim2SF x) as [[]|[]| |[] m e]; cbn;
    rewrite ?Z.compare_refl, ?Pos.compare_cont_refl.
Qed.

Lemma is_nan_eq (x : float) : PrimFloat.is_nan x = true → x = nan.
Proof.
  rewrite is_nan_spec. intros H. apply Prim2SF_inj.
  change (Prim2SF nan) with S754_nan. by destruct (Prim2SF x).
Qed.

Lemma sub_nan_r (x : float) : (x - nan)%float = nan.
Proof.
  apply Prim2SF_inj. rewrite sub_spec.
  change (Prim2SF nan) with S754_nan. by destruct (Prim2SF x) as [[]|[]| |].
Qed.

Lemma sub_diag (x : float) :
  (x - x)%float = if PrimFloat.is_finite x then 0%float else nan.
Proof.
  apply Prim2SF_inj. rewrite sub_spec, SF64sub_diag, is_finite_spec.
  by destruct (Prim2SF x).
Qed.

Lemma add_zero_l (x : float) :
  Prim2SF x ≠ S754_zero true → (0 + x)%float = x.
Proof.
  intros H. apply Prim2SF_inj. rewrite add_spec.
  change (Prim2SF 0) with (S754_zero false).
  by destruct (Prim2SF x) as [[]|[]| |s m e].
Qed.

Lemma square_not_neg_zero (x : float) :
  Prim2SF (x * x)%float ≠ S754_zero true.
Proof.
  rewrite mul_spec. unfold SF64mul, SFmul.
  destruct (Prim2SF x) as [[]|[]| |s m e]; try discriminate.
  rewrite xorb_nilpotent. apply (binary_round_aux_sign false).
Qed.

Lemma square_add_zero (x : float) :
  ((0 + x) * (0 + x))%float = (x * x)%float.
Proof.
  apply Prim2SF_inj. rewrite !mul_spec, add_spec.
  change (Prim2SF 0) with (S754_zero false).
  by destruct (Prim2SF x) as [[]|[]| |s m e].
Qed.

End binary64.

(** ** The [float64] cells in closed form *)

Lemma make_two (pu do : list Z) :
  length pu = length do → GroupBy.make [pu; do] = Ok (byloc_of pu do).
Proof. intros Hlen. unfold GroupBy.make. by rewrite row_keys_two. Qed.

Lemma byloc_of_keys_length (pu do : list Z) (n : nat) :
  length pu = n → length do = n → length (GroupBy.keys (byloc_of pu do)) = n.
Proof. intros Hpu Hdo. simpl. rewrite length_zip_with. lia. Qed.

Section float_cells.
Context (reduce : list float → float) (g : GroupBy.t) (fare : list float).
Hypothesis Hlen : length fare = length (GroupBy.keys g).

Lemma F64_cell_mf_ok :
  F64.cell_mf reduce g fare
  = Ok (F64.group_mean reduce g fare <$> GroupBy.unique_keys g).
Proof.
  unfold F64.cell_mf, F64.mean. by rewrite bool_decide_eq_true_2.
Qed.

Lemma F64_sum_ok (values : list float) :
  length values = length (GroupBy.keys g) →
  F64.sum reduce g values
  = Ok (GroupBy.unique_keys g,
        (λ k, reduce (GroupBy.segment g k values)) <$> GroupBy.unique_keys g).
Proof. intros H. unfold F64.sum. by rewrite bool_decide_eq_true_2. Qed.


Lemma F64_cell_sf_ok :
  F64.cell_sf reduce g fare (cell_size g)
    (F64.group_mean reduce g fare <$> GroupBy.unique_keys g)
  = Ok (F64.group_sf reduce g fare <$> GroupBy.unique_keys g).
Proof.
  unfold F64.cell_sf, cell_size, GroupBy.size, binop.
  rewrite F64_sum_ok by by rewrite length_fmap.
  cbn [bind snd]. rewrite bool_decide_eq_true_2 by (by rewrite !length_fmap).
  cbn [bind]. rewrite bool_decide_eq_true_2
    by (by rewrite length_zip_with, !length_fmap, Nat.min_id).
  f_equal. rewrite <-!list_fmap_compose.
  by rewrite !zip_with_fmap_same.
Qed.

Lemma F64_fare_std_ok (pu do : list Z) :
  g = byloc_of pu do → length pu = length do →
  F64.fare_std reduce pu do fare
  = Ok (F64.group_sf reduce g fare <$> GroupBy.keys g).
Proof.
  intros Hg Hpd. unfold F64.fare_std. rewrite make_two by done.
  cbn [bind]. rewrite <-Hg, F64_cell_mf_ok. cbn [bind].
  rewrite F64_cell_sf_ok. cbn [bind]. apply broadcast_fmap.
Qed.

(** The value of [sf] for a group with the single fare [x], which is not
    NaN: [+0.0] when the square of [x] is finite, NaN when it is not. *)
Lemma F64_group_sf_singleton (k : key) (x : float) :
  (∀ y, PrimFloat.is_nan y = false →
        reduce [y] = y ∨ reduce [y] = (0 + y)%float) →
  GroupBy.segment g k fare = [x] →
  PrimFloat.is_nan x = false →
  F64.group_sf reduce g fare k
  = if PrimFloat.is_finite (x * x) then 0%float else nan.
Proof.
  intros Hone Hseg Hx. unfold F64.group_sf, F64.group_mean.
  rewrite segment_fmap, <-(segment_length g k fare Hlen), Hseg.
  cbn [fmap list_fmap length]. change (F64.of_int64 (Z.of_nat 1)) with 1%float.
  rewrite !div_one. unfold F64.square.
  assert ((reduce [x] * reduce [x])%float = (x * x)%float) as ->.
  { destruct (Hone x Hx) as [->| ->]; [done|]. apply square_add_zero. }
  destruct (PrimFloat.is_nan (x * x)) eqn:Hsq.
  - apply is_nan_eq in Hsq. rewrite Hsq. apply sub_nan_r.
  - assert (reduce [(x * x)%float] = (x * x)%float) as ->.
    { destruct (Hone (x * x)%float Hsq) as [->| ->]; [done|].
      apply add_zero_l, square_not_neg_zero. }
    apply sub_diag.
Qed.

End float_cells.

(** A row's entry in a column belongs to the segment of the row's group. *)
Lemma segment_elem_of {A} (g : GroupBy.t) (k : key) (xs : list A)
    (i : nat) (x : A) :
  GroupBy.keys g !! i = Some k → xs !! i = Some x →
  x ∈ GroupBy.segment g k xs.
Proof.
  unfold GroupBy.segment, GroupBy.members. revert xs i.
  induction (GroupBy.keys g) as [|k' ks IH]; intros [|x' xs] [|i];
    cbn [fmap list_fmap compress]; try done.
  - intros [= ->] [= ->]. rewrite bool_decide_eq_true_2 by done. left.
  - simpl. intros Hk Hx. case_bool_decide; [right|]; by eapply IH.
Qed.

(** A row whose group has no other row is the whole segment of its
    group. *)
Lemma segment_singleton {A} (g : GroupBy.t) (k : key) (xs : list A)
    (i : nat) (x : A) :
  length xs = length (GroupBy.keys g) →
  GroupBy.keys g !! i = Some k → xs !! i = Some x →
  GroupBy.count g k = 1%nat → GroupBy.segment g k xs = [x].
Proof.
  intros Hlen Hk Hx Hc.
  pose proof (segment_length g k xs Hlen) as Hs. rewrite Hc in Hs.
  pose proof (segment_elem_of g k xs i x Hk Hx) as Hin.
  destruct (GroupBy.segment g k xs) as [|y [|??]]; simplify_eq/=.
  by apply list_elem_of_singleton in Hin as ->.
Qed.

(** * The claims *)

(** C1. On the two-group table the column ['fare_std'] holds 0 for the rows
    of group A and 100 for the rows of group B.  100 is the two-moment
    variance of the fares 0 and 20 of group B; the square root of that
    variance clamped at zero is 10, and 100 is not. *)
Theorem fare_std_two_groups :
  ∃ data',
    zscore_cells two_groups = Ok data'
    ∧ df_get data' "fare_std"
      = Ok (Float64 [Z2Qc 0; Z2Qc 0; Z2Qc 0; Z2Qc 100; Z2Qc 100])
    ∧ moment2 [Z2Qc 0; Z2Qc 20] - square (moment1 [Z2Qc 0; Z2Qc 20])
      = Z2Qc 100
    ∧ is_sqrt (Z2Qc 10) (clamp0 (Z2Qc 100))
    ∧ ¬ is_sqrt (Z2Qc 100) (clamp0 (Z2Qc 100)).
Proof.
  eexists. split; [vm_compute; reflexivity|].
  split_and!; try qc_eq.
  - split; [by vm_compute|qc_eq].
  - intros [_ H]. revert H. qc_neq.
Qed.

(** C2. On the two-group table the column ['fare_z'] holds 0 for the rows
    of group A and [-10/101], [10/101] for the fares 0 and 20 of group B:
    the denominator is the ['fare_std'] entry 100 plus 1.  With the
    standard deviation 10 of group B the values would be [-10/11] and
    [10/11]. *)
Theorem fare_z_two_groups :
  ∃ data',
    zscore_cells two_groups = Ok data'
    ∧ df_get data' "fare_mean"
      = Ok (Float64 [Z2Qc 10; Z2Qc 10; Z2Qc 10; Z2Qc 10; Z2Qc 10])
    ∧ df_get data' "fare_std"
      = Ok (Float64 [Z2Qc 0; Z2Qc 0; Z2Qc 0; Z2Qc 100; Z2Qc 100])
    ∧ df_get data' "fare_z"
      = Ok (Float64 [Z2Qc 0; Z2Qc 0; Z2Qc 0;
                     Q2Qc (-10 # 101); Q2Qc (10 # 101)])
    ∧ (Z2Qc 0 - Z2Qc 10) / (Z2Qc 100 + 1) = Q2Qc (-10 # 101)
    ∧ (Z2Qc 0 - Z2Qc 10) / (Z2Qc 10 + 1) = Q2Qc (-10 # 11)
    ∧ Q2Qc (-10 # 101) ≠ Q2Qc (-10 # 11)
    ∧ Q2Qc (10 # 101) ≠ Q2Qc (10 # 11).
Proof.
  eexists. split; [vm_compute; reflexivity|].
  split_and!; try qc_neq; qc_eq.
Qed.





(** On the two-group table the [float64] cells compute the means 10, 10
    and the values 0 and 100 for [sf]. *)
Example fares_two_groups_run :
  F64.cell_mf F64.fsum (byloc_of [1; 1; 1; 2; 2]%Z [1; 1; 1; 3; 3]%Z)
    fares_two_groups = Ok [10; 10]%float
  ∧ F64.cell_sf F64.fsum (byloc_of [1; 1; 1; 2; 2]%Z [1; 1; 1; 3; 3]%Z)
      fares_two_groups [3; 2]%Z [10; 10]%float = Ok [0; 100]%float.
Proof. split; vm_compute; reflexivity. Qed.

(** The two-moment value is not the value of a second pass over the rows:
    on three fares of [0.1] the mean is rounded up, the cell returns
    [-2^-59], a negative value, and the mean of the squared deviations from
    the mean is [2^-112]. *)
Example sf_differs_from_two_pass :
  F64.cell_mf F64.fsum (byloc_of [1; 1; 1]%Z [2; 2; 2]%Z) fares_tenths
  = Ok [0x1.999999999999bp-4]%float
  ∧ F64.cell_sf F64.fsum (byloc_of [1; 1; 1]%Z [2; 2; 2]%Z) fares_tenths
      [3]%Z [0x1.999999999999bp-4]%float
    = Ok [-0x1p-59]%float
  ∧ F64.two_pass F64.fsum fares_tenths = 0x1p-112%float
  ∧ (-0x1p-59 <? 0)%float = true.
Proof. split_and!; vm_compute; reflexivity. Qed.

(** C5. On the two-group table [argmax] of the column ['fare_z'] is row 4,
    the row of the fare 20, and the z-score there is the largest entry of
    the column; that largest z-score is [10/101], not [10/11]. *)
Theorem argmax_two_groups :
  ∃ data',
    zscore_cells two_groups = Ok data'
    ∧ df_get data' "fare_z"
      = Ok (Float64 [Z2Qc 0; Z2Qc 0; Z2Qc 0;
                     Q2Qc (-10 # 101); Q2Qc (10 # 101)])
    ∧ Forall (λ y, y <= Q2Qc (10 # 101))
        [Z2Qc 0; Z2Qc 0; Z2Qc 0; Q2Qc (-10 # 101); Q2Qc (10 # 101)]
    ∧ cell_worst data' = Ok 4%nat
    ∧ row_at data' 4
      = Ok [("PULocationID"%string, SInt 2); ("DOLocationID"%string, SInt 3);
            ("fare_amount"%string, SFloat (Z2Qc 20));
            ("fare_mean"%string, SFloat (Z2Qc 10));
            ("fare_std"%string, SFloat (Z2Qc 100));
            ("fare_z"%string, SFloat (Q2Qc (10 # 101)))]
    ∧ Q2Qc (10 # 101) ≠ Q2Qc (10 # 11).
Proof.
  eexists. split; [vm_compute; reflexivity|].
  split_and!; try qc_neq; try qc_eq.
  repeat constructor; by vm_compute.
Qed.

(** C6. Grouping partitions the rows exactly: for every choice of key
    columns on which [ak.GroupBy] succeeds, each row has the key tuple made
    of its entries in the key columns and lies in exactly one group, and
    the per-group row subsets, taken together, are a rearrangement of the
    rows of the table, so that no row is dropped or duplicated. *)
Theorem groupby_partitions_rows {A} (cols : list (list Z)) (g : GroupBy.t)
    (rows : list A) :
  GroupBy.make cols = Ok g →
  length rows = length (GroupBy.keys g) →
  (∀ c, c ∈ cols → length c = length rows)
  ∧ (∀ i k, GroupBy.keys g !! i = Some k →
       Forall2 (λ c x, c !! i = Some x) cols k)
  ∧ (∀ i, (i < length rows)%nat →
       ∃ j, in_group g i j ∧ ∀ j', in_group g i j' → j' = j)
  ∧ concat ((λ k, GroupBy.segment g k rows) <$> GroupBy.unique_keys g)
    ≡ₚ rows.
Proof.
  intros Hg Hlen. unfold GroupBy.make in Hg.
  destruct (GroupBy.row_keys cols) as [ks|] eqn:Hks; [|done].
  simpl in Hg. injection Hg as <-. simpl in Hlen.
  split_and!.
  - intros c Hc. rewrite Hlen. symmetry. by eapply row_keys_length.
  - intros i k Hk. by eapply row_keys_lookup.
  - intros i Hi. apply in_group_exists_unique. simpl. by rewrite <-Hlen.
  - by apply group_segments_perm.
Qed.

Lemma groupby_partitions_rows_witness :
  GroupBy.make [[1; 1; 1; 2; 2]%Z; [1; 1; 1; 3; 3]%Z]
    = Ok {| GroupBy.keys := [[1; 1]; [1; 1]; [1; 1]; [2; 3]; [2; 3]]%Z |}
  ∧ length [10; 11; 12; 13; 14]%nat = 5%nat
  ∧ concat ((λ k, GroupBy.segment
                    {| GroupBy.keys := [[1; 1]; [1; 1]; [1; 1]; [2; 3]; [2; 3]]%Z |}
                    k [10; 11; 12; 13; 14]%nat)
            <$> GroupBy.unique_keys
                  {| GroupBy.keys := [[1; 1]; [1; 1]; [1; 1]; [2; 3]; [2; 3]]%Z |})
    ≡ₚ [10; 11; 12; 13; 14]%nat.
Proof.
  split; [reflexivity|]. split; [reflexivity|].
  apply (groupby_partitions_rows
           [[1; 1; 1; 2; 2]%Z; [1; 1; 1; 3; 3]%Z] _ [10; 11; 12; 13; 14]%nat);
    reflexivity.
Defined.

(** C7. For a singleton group (row count 1) with the fare [x], not NaN,
    the value computed for the standard deviation is exactly [+0.0] when
    the [float64] square of [x] is finite, and NaN when it is not (the
    square overflows, or [x] is an infinity): this holds for the group's
    entry of [sf] and for the entry of the column ['fare_std'] at the
    group's row.  The reduction of a single value that is not NaN is that
    value, possibly added to [0.0]. *)
Theorem singleton_group_std_zero (reduce : list float → float)
    (pu do : list Z) (fare : list float) :
  (∀ x, PrimFloat.is_nan x = false →
        reduce [x] = x ∨ reduce [x] = (0 + x)%float) →
  length pu = length fare → length do = length fare →
  ∃ byloc mf sf std,
    GroupBy.make [pu; do] = Ok byloc
    ∧ F64.cell_mf reduce byloc fare = Ok mf
    ∧ F64.cell_sf reduce byloc fare (cell_size byloc) mf = Ok sf
    ∧ F64.fare_std reduce pu do fare = Ok std
    ∧ length std = length fare
    ∧ (∀ j, cell_size byloc !! j = Some 1%Z →
         ∃ k x,
           GroupBy.unique_keys byloc !! j = Some k
           ∧ GroupBy.segment byloc k fare = [x]
           ∧ (PrimFloat.is_nan x = false →
              sf !! j
              = Some (if PrimFloat.is_finite (x * x) then 0%float else nan)))
    ∧ (∀ i k x, GroupBy.keys byloc !! i = Some k →
         GroupBy.count byloc k = 1%nat → fare !! i = Some x →
         PrimFloat.is_nan x = false →
         std !! i
         = Some (if PrimFloat.is_finite (x * x) then 0%float else nan)).
Proof.
  intros Hone Hpu Hdo.
  assert (length fare = length (GroupBy.keys (byloc_of pu do))) as Hlen
    by (symmetry; by apply byloc_of_keys_length).
  exists (byloc_of pu do),
    (F64.group_mean reduce (byloc_of pu do) fare
       <$> GroupBy.unique_keys (byloc_of pu do)),
    (F64.group_sf reduce (byloc_of pu do) fare
       <$> GroupBy.unique_keys (byloc_of pu do)),
    (F64.group_sf reduce (byloc_of pu do) fare
       <$> GroupBy.keys (byloc_of pu do)).
  split_and!.
  - apply make_two. congruence.
  - by apply F64_cell_mf_ok.
  - by apply F64_cell_sf_ok.
  - apply F64_fare_std_ok; [done..|congruence].
  - by rewrite length_fmap.
  - intros j. unfold cell_size, GroupBy.size. cbn [snd].
    rewrite !list_lookup_fmap.
    destruct (GroupBy.unique_keys (byloc_of pu do) !! j) as [k|]; [|done].
    cbn [fmap option_fmap option_map]. intros [= Hk].
    pose proof (segment_length (byloc_of pu do) k fare Hlen) as Hs.
    destruct (GroupBy.segment (byloc_of pu do) k fare) as [|x [|??]] eqn:Hseg;
      simpl in Hs; try lia.
    exists k, x. split_and!; try done. intros Hx. f_equal.
    by apply F64_group_sf_singleton.
  - intros i k x Hi Hk Hx Hnan. rewrite list_lookup_fmap, Hi.
    cbn [fmap option_fmap option_map]. f_equal.
    apply F64_group_sf_singleton; [done..| |done].
    by eapply segment_singleton.
Qed.

Lemma singleton_group_std_zero_witness :
  (∀ x, PrimFloat.is_nan x = false →
        F64.fsum [x] = x ∨ F64.fsum [x] = (0 + x)%float)
  ∧ length [1; 1; 2]%Z = length [10; 20; 7]%float
  ∧ length [1; 1; 3]%Z = length [10; 20; 7]%float
  ∧ ∃ byloc mf sf std,
      GroupBy.make [[1; 1; 2]%Z; [1; 1; 3]%Z] = Ok byloc
      ∧ F64.cell_mf F64.fsum byloc [10; 20; 7]%float = Ok mf
      ∧ F64.cell_sf F64.fsum byloc [10; 20; 7]%float (cell_size byloc) mf
        = Ok sf
      ∧ F64.fare_std F64.fsum [1; 1; 2]%Z [1; 1; 3]%Z [10; 20; 7]%float
        = Ok std
      ∧ length std = length [10; 20; 7]%float
      ∧ (∀ j, cell_size byloc !! j = Some 1%Z →
           ∃ k x,
             GroupBy.unique_keys byloc !! j = Some k
             ∧ GroupBy.segment byloc k [10; 20; 7]%float = [x]
             ∧ (PrimFloat.is_nan x = false →
                sf !! j
                = Some (if PrimFloat.is_finite (x * x)
                        then 0%float else nan)))
      ∧ (∀ i k x, GroupBy.keys byloc !! i = Some k →
           GroupBy.count byloc k = 1%nat →
           [10; 20; 7]%float !! i = Some x →
           PrimFloat.is_nan x = false →
           std !! i
           = Some (if PrimFloat.is_finite (x * x) then 0%float else nan)).
Proof.
  split; [intros x _; right; reflexivity|].
  split; [reflexivity|]. split; [reflexivity|].
  apply (singleton_group_std_zero F64.fsum [1; 1; 2]%Z [1; 1; 3]%Z
           [10; 20; 7]%float);
    [intros x _; right; reflexivity|reflexivity|reflexivity].
Defined.

(** The third ride of [fares_overflow] is alone in its group and its fare,
    about [1e200], has a square beyond the largest finite [float64]: the
    cells store NaN, not 0, as its ['fare_std']. *)
Lemma singleton_group_std_overflow :
  GroupBy.keys (byloc_of [1; 1; 2]%Z [1; 1; 3]%Z) !! 2%nat = Some [2; 3]%Z
  ∧ GroupBy.count (byloc_of [1; 1; 2]%Z [1; 1; 3]%Z) [2; 3]%Z = 1%nat
  ∧ fares_overflow !! 2%nat = Some 0x1.4e718d7d7625ap+664%float
  ∧ PrimFloat.is_finite 0x1.4e718d7d7625ap+664 = true
  ∧ (0x1.4e718d7d7625ap+664 * 0x1.4e718d7d7625ap+664)%float = infinity
  ∧ F64.fare_std F64.fsum [1; 1; 2]%Z [1; 1; 3]%Z fares_overflow
    = Ok [25; 25; nan]%float
  ∧ PrimFloat.is_nan nan = true
  ∧ nan ≠ 0%float.
Proof.
  split_and!; try (vm_compute; reflexivity).
  intros H. apply (f_equal PrimFloat.is_nan) in H. vm_compute in H.
  discriminate H.
Qed.

(** With the fares 10, 20 and 7, whose squares are finite, the third
    ride, alone in its group, gets exactly 0. *)
Example one_singleton_run :
  F64.fare_std F64.fsum [1; 1; 2]%Z [1; 1; 3]%Z [10; 20; 7]%float
  = Ok [25; 25; 0]%float.
Proof. vm_compute. reflexivity. Qed.

(** C8. When no row has a z-score above 2, the [z > 2] filter does not
    raise: it returns a table with the same columns, original and derived,
    in the same order, each of them empty. *)
Theorem exdf_empty_when_no_row_exceeds (n : nat) (data : DataFrame)
    (z : list Qc) :
  wf_df n data →
  df_get data "fare_z" = Ok (Float64 z) →
  Forall (λ x, ¬ 2 < x) z →
  ∃ exdf,
    cell_exdf data = Ok exdf
    ∧ columns exdf = columns data
    ∧ wf_df 0 exdf
    ∧ nrows exdf = 0%nat.
Proof.
  intros Hwf Hz Hno.
  set (mask := (λ x, bool_decide (2 < x)) <$> z).
  assert (exorbitant_mask data = Ok mask) as Hmask.
  { unfold exorbitant_mask. by rewrite Hz. }
  pose proof (exorbitant_mask_length n data mask Hwf Hmask) as Hlen.
  assert (Forall (λ b, b = false) mask) as Hfalse.
  { unfold mask. rewrite Forall_fmap. eapply Forall_impl; [exact Hno|].
    intros x Hx. simpl. by apply bool_decide_eq_false_2. }
  assert (count_true mask = 0%nat) as Hcount.
  { unfold count_true. clear -Hfalse.
    induction Hfalse as [|b l -> _ IH]; [done|].
    rewrite filter_cons_False; [exact IH|]. simpl. tauto. }
  exists (select_rows mask data).
  assert (wf_df 0 (select_rows mask data)) as Hwf0.
  { rewrite <-Hcount. apply select_rows_wf. by rewrite Hlen. }
  split_and!.
  - unfold cell_exdf. rewrite Hmask. cbn [bind].
    apply filter_rows_ok. by rewrite Hlen.
  - apply select_rows_columns.
  - done.
  - destruct (select_rows mask data) as [|[k c] d] eqn:Hd; [done|].
    by apply Forall_cons in Hwf0 as [? _].
Qed.

Lemma exdf_empty_when_no_row_exceeds_witness :
  wf_df 5 two_groups_scored
  ∧ df_get two_groups_scored "fare_z"
    = Ok (Float64 [Z2Qc 0; Z2Qc 0; Z2Qc 0; Q2Qc (-10 # 101); Q2Qc (10 # 101)])
  ∧ Forall (λ x, ¬ 2 < x)
      [Z2Qc 0; Z2Qc 0; Z2Qc 0; Q2Qc (-10 # 101); Q2Qc (10 # 101)]
  ∧ ∃ exdf,
      cell_exdf two_groups_scored = Ok exdf
      ∧ columns exdf = columns two_groups_scored
      ∧ wf_df 0 exdf
      ∧ nrows exdf = 0%nat.
Proof.
  assert (Forall (λ x, ¬ 2 < x)
      [Z2Qc 0; Z2Qc 0; Z2Qc 0; Q2Qc (-10 # 101); Q2Qc (10 # 101)]) as Hno
    by (repeat constructor; by vm_compute).
  split; [repeat constructor|]. split; [reflexivity|]. split; [exact Hno|].
  apply (exdf_empty_when_no_row_exceeds 5 two_groups_scored
           [Z2Qc 0; Z2Qc 0; Z2Qc 0; Q2Qc (-10 # 101); Q2Qc (10 # 101)]);
    [repeat constructor|reflexivity|exact Hno].
Defined.

(** C9. Each of the two boolean-mask filters (non-negative fares, and
    z-score above 2) applies its mask to every column of the table: the
    result has the same column names, every column of the result is the
    in-order selection of the source column by the mask and has as many
    entries as the mask has true bits.  On the server the selected columns
    are registered as new arrays: every array held before the filter,
    and so the source table, is unchanged afterwards. *)
Theorem mask_filter_builds_new_table (n : nat) (data : DataFrame)
    (mask : list bool) (st : Server.store) (tbl : Server.table)
    (m : Server.handle) :
  wf_df n data →
  non_neg_mask data = Ok mask ∨ exorbitant_mask data = Ok mask →
  Server.deref st tbl = Some data →
  st !! m = Some (Bool mask) →
  ∃ st' tbl',
    (non_neg_mask data = Ok mask →
       cell_non_neg data = Ok (select_rows mask data))
    ∧ (exorbitant_mask data = Ok mask →
       cell_exdf data = Ok (select_rows mask data))
    ∧ columns (select_rows mask data) = columns data
    ∧ wf_df (count_true mask) (select_rows mask data)
    ∧ Forall2 (λ kc kc', kc'.1 = kc.1 ∧ kc'.2 = compress_col mask kc.2
                         ∧ col_sublist kc'.2 kc.2)
        data (select_rows mask data)
    ∧ Server.filter_rows st tbl m = Ok (st', tbl')
    ∧ Server.deref st' tbl' = Some (select_rows mask data)
    ∧ st `prefix_of` st'
    ∧ Server.deref st' tbl = Some data
    ∧ Forall (λ kh, (length st ≤ kh.2)%nat) tbl'.
Proof.
  intros Hwf Hmask Hd Hm.
  assert (length mask = n) as Hlen.
  { destruct Hmask; [by eapply non_neg_mask_length
                    |by eapply exorbitant_mask_length]. }
  subst n.
  destruct (server_filter_rows_ok mask m tbl st data Hm Hd Hwf)
    as (st' & tbl' & Hrun & Hpre & Hfresh & Hd').
  exists st', tbl'. split_and!; try done.
  - intros H. unfold cell_non_neg. rewrite H. cbn [bind].
    by apply filter_rows_ok.
  - intros H. unfold cell_exdf. rewrite H. cbn [bind].
    by apply filter_rows_ok.
  - apply select_rows_columns.
  - by apply select_rows_wf.
  - apply select_rows_Forall2.
  - by apply (deref_prefix st).
Qed.

Lemma mask_filter_builds_new_table_witness :
  wf_df 3 with_refund
  ∧ (non_neg_mask with_refund = Ok [true; false; true]
     ∨ exorbitant_mask with_refund = Ok [true; false; true])
  ∧ Server.deref with_refund_store with_refund_handles = Some with_refund
  ∧ with_refund_store !! 3%nat = Some (Bool [true; false; true])
  ∧ ∃ st' tbl',
      Server.filter_rows with_refund_store with_refund_handles 3 = Ok (st', tbl')
      ∧ Server.deref st' tbl'
        = Some (select_rows [true; false; true] with_refund)
      ∧ with_refund_store `prefix_of` st'
      ∧ Server.deref st' with_refund_handles = Some with_refund.
Proof.
  split; [repeat constructor|]. split; [left; reflexivity|].
  split; [reflexivity|]. split; [reflexivity|].
  destruct (mask_filter_builds_new_table 3 with_refund [true; false; true]
              with_refund_store with_refund_handles 3)
    as (st' & tbl' & _ & _ & _ & _ & _ & Hrun & Hd' & Hpre & Hd & _);
    [repeat constructor|left; reflexivity|reflexivity|reflexivity|].
  exists st', tbl'. by split_and!.
Defined.

(** The non-negative filter on [with_refund] drops the refunded ride. *)
Example with_refund_non_neg :
  cell_non_neg with_refund
  = Ok [("PULocationID"%string, Int64 [1; 2]%Z);
        ("DOLocationID"%string, Int64 [1; 3]%Z);
        ("fare_amount"%string, Float64 [Z2Qc 10; Z2Qc 7])].
Proof. reflexivity. Qed.

(** C10. [cvt_to_string] is total and never raises: on every input it
    returns a string, which is ['N/A'] when the input equals the empty
    string or when the comparison or the conversion raises, and [str(v)]
    otherwise. *)
Theorem cvt_to_string_total (v : pyval) :
  cvt_to_string v = Ok (cvt_to_string_expected v)
  ∧ (py_eq_str v "" = Ok true → cvt_to_string v = Ok "N/A"%string)
  ∧ (∀ e, py_eq_str v "" = Raise e → cvt_to_string v = Ok "N/A"%string)
  ∧ (∀ e, py_eq_str v "" = Ok false → py_str v = Raise e →
       cvt_to_string v = Ok "N/A"%string)
  ∧ (∀ s, py_eq_str v "" = Ok false → py_str v = Ok s →
       cvt_to_string v = Ok s).
Proof.
  unfold cvt_to_string, cvt_to_string_expected, try_except, bind.
  repeat split.
  - destruct (py_eq_str v "") as [[]|]; [done| |done].
    by destruct (py_str v).
  - by intros ->.
  - by intros e ->.
  - by intros e -> ->.
  - by intros s -> ->.
Qed.

(** * Further properties of the cells *)

(** ** Table reads and updates, continued *)

Lemma dict_set_same (df : DataFrame) (name : string) (c : column) :
  df_get df name = Ok c → dict_set df name c = df.
Proof.
  induction df as [|[k c'] df IH]; simpl; [done|].
  case_bool_decide; [by intros [= ->]|]. intros Hc. by rewrite IH.
Qed.

Lemma columns_dict_set (df : DataFrame) (name : string) (c : column) :
  columns (dict_set df name c)
  = if bool_decide (name ∈ columns df) then columns df
    else columns df ++ [name].
Proof.
  unfold columns. induction df as [|[k c'] df IH]; [done|].
  cbn [dict_set fmap list_fmap fst].
  destruct (decide (k = name)) as [->|Hne].
  - rewrite !bool_decide_eq_true_2; [done|left|done].
  - rewrite (bool_decide_eq_false_2 (k = name)) by done.
    cbn [fmap list_fmap fst]. fold (fmap (M:=list) (@fst string column)).
    rewrite IH. destruct (decide (name ∈ df.*1)) as [Hin|Hin].
    + rewrite !bool_decide_eq_true_2; [done|by right|done].
    + rewrite !bool_decide_eq_false_2; [done| |done].
      rewrite elem_of_cons. by intros [->|?].
Qed.

Lemma columns_dict_set_app (df : DataFrame) (name : string) (c : column) :
  columns (dict_set df name c)
  = columns df ++ filter (λ x, x ∉ columns df) [name].
Proof.
  rewrite columns_dict_set. case_bool_decide.
  - rewrite filter_cons_False by tauto. by rewrite filter_nil, app_nil_r.
  - by rewrite filter_cons_True by done.
Qed.

Lemma not_elem_of_filter_singleton (P : string → Prop)
    `{!∀ x, Decision (P x)} (a b : string) :
  a ≠ b → a ∉ filter P [b].
Proof.
  intros Hab [_ Hin]%list_elem_of_filter.
  by apply list_elem_of_singleton in Hin.
Qed.

Lemma filter_fresh_app (l extra : list string) (name : string) :
  name ∉ extra →
  filter (λ x, x ∉ l ++ extra) [name] = filter (λ x, x ∉ l) [name].
Proof.
  intros Hx. destruct (decide (name ∈ l)).
  - rewrite !filter_cons_False; [done|tauto|].
    rewrite elem_of_app. tauto.
  - rewrite !filter_cons_True; [done|done|].
    rewrite elem_of_app. tauto.
Qed.

(** ** Running the z-score cells *)

Lemma zscore_cells_closed (n : nat) (data : DataFrame)
    (pu do : list Z) (fare : list Qc) :
  ride_table n data pu do fare →
  zscore_cells data
  = Ok (dict_set
          (dict_set
             (dict_set data "fare_mean"
                (Float64 (group_mean (byloc_of pu do) fare
                            <$> GroupBy.keys (byloc_of pu do))))
             "fare_std"
             (Float64 (group_sf (byloc_of pu do) fare
                         <$> GroupBy.keys (byloc_of pu do))))
          "fare_z"
          (Float64 (zip_with (fare_z_of (byloc_of pu do) fare) fare
                      (GroupBy.keys (byloc_of pu do))))).
Proof.
  intros (Hwf & Hpu & Hdo & Hfare).
  by apply (zscore_cells_ok data pu do fare n).
Qed.

Lemma byloc_of_length (n : nat) (data : DataFrame)
    (pu do : list Z) (fare : list Qc) :
  ride_table n data pu do fare →
  length (GroupBy.keys (byloc_of pu do)) = n ∧ length fare = n.
Proof.
  intros (Hwf & Hpu & Hdo & Hfare). split.
  - by apply (keys_length data pu do n).
  - by apply (fare_length data fare n).
Qed.

(** What a ride table looks like after the z-score cells: the three
    derived columns in closed form, and everything else as before. *)
Lemma zscore_cells_result (n : nat) (data : DataFrame)
    (pu do : list Z) (fare : list Qc) :
  ride_table n data pu do fare →
  ∃ data',
    zscore_cells data = Ok data'
    ∧ wf_df n data'
    ∧ df_get data' "fare_mean"
      = Ok (Float64 (group_mean (byloc_of pu do) fare
                       <$> GroupBy.keys (byloc_of pu do)))
    ∧ df_get data' "fare_std"
      = Ok (Float64 (group_sf (byloc_of pu do) fare
                       <$> GroupBy.keys (byloc_of pu do)))
    ∧ df_get data' "fare_z"
      = Ok (Float64 (zip_with (fare_z_of (byloc_of pu do) fare) fare
                       (GroupBy.keys (byloc_of pu do))))
    ∧ (∀ name, name ∉ derived_columns → df_get data' name = df_get data name)
    ∧ columns data'
      = columns data ++ filter (λ name, name ∉ columns data) derived_columns.
Proof.
  intros Hrt. pose proof (byloc_of_length _ _ _ _ _ Hrt) as [Hkl Hfl].
  eexists. split; [by apply (zscore_cells_closed n)|].
  destruct Hrt as (Hwf & Hpu & Hdo & Hfare).
  split_and!.
  - repeat apply dict_set_wf; try done; cbn [size];
      rewrite ?length_fmap, ?length_zip_with; lia.
  - do 2 (rewrite df_get_dict_set_ne by done). apply df_get_dict_set_eq.
  - rewrite df_get_dict_set_ne by done. apply df_get_dict_set_eq.
  - apply df_get_dict_set_eq.
  - intros name Hname. unfold derived_columns in Hname.
    rewrite !not_elem_of_cons in Hname. destruct Hname as (? & ? & ? & _).
    by rewrite !df_get_dict_set_ne.
  - rewrite !columns_dict_set_app, <-!app_assoc. f_equal.
    rewrite !filter_fresh_app
      by (intros H; repeat (apply elem_of_app in H as [H|H]);
          revert H; by apply not_elem_of_filter_singleton).
    unfold derived_columns.
    change ["fare_mean"; "fare_std"; "fare_z"]%string
      with (["fare_mean"%string] ++ ["fare_std"%string] ++ ["fare_z"%string]).
    by rewrite !filter_app.
Qed.

Lemma sum_counts_concat {A} (f : key → list A) (ks : list key) :
  foldr Z.add 0%Z ((λ k, Z.of_nat (length (f k))) <$> ks)
  = Z.of_nat (length (concat (f <$> ks))).
Proof.
  induction ks as [|k ks IH]; [done|].
  cbn [fmap list_fmap foldr concat]. fold (fmap (M:=list) f).
  fold (fmap (M:=list) (λ k, Z.of_nat (length (f k)))).
  rewrite IH, length_app. lia.
Qed.

(** ** Filtering by a condition on a column *)

Lemma compress_bool_decide {A} (P : A → Prop) `{!∀ x, Decision (P x)}
    (l : list A) :
  compress ((λ x, bool_decide (P x)) <$> l) l = filter P l.
Proof.
  induction l as [|x l IH]; [done|]. cbn [fmap list_fmap compress].
  destruct (decide (P x)).
  - by rewrite bool_decide_eq_true_2, filter_cons_True, IH.
  - by rewrite bool_decide_eq_false_2, filter_cons_False, IH.
Qed.

Lemma compress_all_true {A} (mask : list bool) (l : list A) :
  Forall (λ b, b = true) mask → length l = length mask →
  compress mask l = l.
Proof.
  intros Hm. revert l.
  induction Hm as [|b mask -> _ IH]; intros [|x l] Hlen; simplify_eq/=;
    [done|]. by rewrite IH.
Qed.

Lemma compress_col_all_true (mask : list bool) (c : column) :
  Forall (λ b, b = true) mask → size c = length mask →
  compress_col mask c = c.
Proof. intros Hm Hc. destruct c; simpl in *; by rewrite compress_all_true. Qed.

Lemma select_rows_all_true (mask : list bool) (df : DataFrame) :
  Forall (λ b, b = true) mask → wf_df (length mask) df →
  select_rows mask df = df.
Proof.
  intros Hm. unfold select_rows. induction 1 as [|[k c] df Hc _ IH]; [done|].
  cbn [fmap list_fmap]. fold (fmap (M:=list) (prod_map (@id string) (compress_col mask))).
  rewrite IH. unfold prod_map. simpl. by rewrite compress_col_all_true.
Qed.

Lemma df_get_select_rows (mask : list bool) (df : DataFrame) (name : string) :
  df_get (select_rows mask df) name
  = bind (df_get df name) (λ c, Ok (compress_col mask c)).
Proof.
  unfold select_rows. induction df as [|[k c] df IH]; [done|].
  cbn [fmap list_fmap prod_map fst snd id df_get].
  by case_bool_decide.
Qed.

Lemma as_float_compress (mask : list bool) (c : column) (xs : list Qc) :
  as_float c = Ok xs → as_float (compress_col mask c) = Ok (compress mask xs).
Proof.
  destruct c; intros [= <-]; simpl; [|done]. by rewrite compress_fmap.
Qed.

(** Filtering a table by a decidable condition on one of its numeric
    columns keeps exactly the entries of that column that satisfy the
    condition, and filtering the result again changes nothing. *)
Lemma filter_by_column (P : Qc → Prop) `{!∀ x, Decision (P x)}
    (n : nat) (data : DataFrame) (name : string) (c : column)
    (xs : list Qc) :
  wf_df n data → df_get data name = Ok c → as_float c = Ok xs →
  ∃ data' c',
    filter_rows data ((λ x, bool_decide (P x)) <$> xs) = Ok data'
    ∧ columns data' = columns data
    ∧ wf_df (length (filter P xs)) data'
    ∧ df_get data' name = Ok c'
    ∧ as_float c' = Ok (filter P xs)
    ∧ filter_rows data' ((λ x, bool_decide (P x)) <$> filter P xs) = Ok data'.
Proof.
  intros Hwf Hc Hxs.
  set (mask := (λ x, bool_decide (P x)) <$> xs).
  assert (length mask = n) as Hlen.
  { unfold mask. rewrite length_fmap, (as_float_length c) by done.
    by eapply df_get_size. }
  assert (count_true mask = length (filter P xs)) as Hcount.
  { rewrite <-(compress_bool_decide P xs). fold mask.
    symmetry. apply compress_length. unfold mask. by rewrite length_fmap. }
  assert (wf_df (length (filter P xs)) (select_rows mask data)) as Hwf'.
  { rewrite <-Hcount. apply select_rows_wf. by rewrite Hlen. }
  exists (select_rows mask data), (compress_col mask c). split_and!.
  - apply filter_rows_ok. by rewrite Hlen.
  - apply select_rows_columns.
  - done.
  - by rewrite df_get_select_rows, Hc.
  - rewrite (as_float_compress mask c xs Hxs). unfold mask.
    by rewrite compress_bool_decide.
  - set (mask' := (λ x, bool_decide (P x)) <$> filter P xs).
    assert (length mask' = length (filter P xs)) as Hlen'
      by apply length_fmap.
    rewrite filter_rows_ok by by rewrite Hlen'.
    f_equal. apply select_rows_all_true; [|by rewrite Hlen'].
    unfold mask'. rewrite Forall_fmap. apply Forall_forall.
    intros x [Hx _]%list_elem_of_filter. simpl.
    by apply bool_decide_eq_true_2.
Qed.

(** ** Reading one row of the table *)

Lemma row_at_ok (n i : nat) (df : DataFrame) :
  wf_df n df → (i < n)%nat →
  ∃ row, row_at df i = Ok row ∧ row.*1 = columns df.
Proof.
  intros Hwf Hi. induction Hwf as [|[k c] df Hc _ (row & Hrow & Hnames)].
  - by exists [].
  - simpl in Hc. cbn [row_at]. unfold getitem_int.
    assert (∃ x, match c with
                 | Int64 l => SInt <$> l !! i
                 | Float64 l => SFloat <$> l !! i
                 | Bool l => SBool <$> l !! i
                 | Strings l => SStr <$> l !! i
                 end = Some x) as [x ->].
    { destruct c as [l|l|l|l]; simpl in Hc;
        (destruct (lookup_lt_is_Some_2 l i) as [y ->]; [lia|]);
        by eexists. }
    cbn [of_option bind]. rewrite Hrow. cbn [bind].
    eexists. split; [done|]. unfold columns in *.
    cbn [fmap list_fmap fst]. by f_equal.
Qed.


(** ** Indexing by location ids *)

Lemma gather_ok {A} (l : list A) (idx : list Z) :
  Forall (λ i, 0 ≤ i < Z.of_nat (length l))%Z idx →
  ∃ out, gather l idx = Ok out
         ∧ length out = length idx
         ∧ ∀ p i, idx !! p = Some i →
             is_Some (out !! p) ∧ out !! p = l !! Z.to_nat i.
Proof.
  intros Hidx. unfold gather.
  destruct (mapM _ idx) as [out|] eqn:Hm.
  - exists out. apply mapM_Some in Hm. split_and!; [done| |].
    + symmetry. by eapply Forall2_length.
    + intros p i Hp.
      destruct (Forall2_lookup_l _ _ _ _ _ Hm Hp) as (x & Hx & Hi).
      rewrite bool_decide_eq_true_2 in Hi; [|].
      * by rewrite Hx, Hi.
      * apply (proj1 (Forall_forall _ _) Hidx i).
        by eapply list_elem_of_lookup_2.
  - exfalso. apply mapM_None, Exists_exists in Hm as (i & Hi & Hnone).
    apply (proj1 (Forall_forall _ _) Hidx) in Hi.
    rewrite bool_decide_eq_true_2 in Hnone by lia.
    apply lookup_ge_None in Hnone. lia.
Qed.

Lemma all_eq_arange (ids : list Z) (s : Z) :
  all (zip_with (λ a b : Z, bool_decide (a = b)) ids
         (seqZ s (Z.of_nat (length ids)))) = true
  ↔ ∀ j id, ids !! j = Some id → id = (s + Z.of_nat j)%Z.
Proof.
  revert s. induction ids as [|a ids IH]; intros s.
  - split; [by intros _ j id|done].
  - cbn [length]. rewrite seqZ_cons by lia.
    replace (Z.pred (Z.of_nat (S (length ids))))
      with (Z.of_nat (length ids)) by lia.
    unfold all in *. cbn [zip_with forallb id].
    rewrite andb_true_iff, IH, bool_decide_eq_true. split.
    + intros [-> Hrest] [|j] id; simpl.
      * intros [= <-]. lia.
      * intros Hj. rewrite (Hrest j id Hj). lia.
    + intros Hall. split.
      * rewrite (Hall 0%nat a eq_refl). lia.
      * intros j id Hj. rewrite (Hall (S j) id Hj). lia.
Qed.

Lemma cell_zero_up_spec (m : nat) (aktzlut : DataFrame) (ids : list Z) :
  wf_df m aktzlut →
  df_get aktzlut "LocationID" = Ok (Int64 ids) →
  ∃ b, cell_zero_up aktzlut = Ok b
       ∧ (b = true ↔ ∀ j id, ids !! j = Some id → id = Z.of_nat j).
Proof.
  intros Hwf Hids. unfold cell_zero_up, binop, arange. rewrite Hids.
  cbn [bind as_int size].
  rewrite bool_decide_eq_true_2
    by (rewrite length_seqZ; lia).
  cbn [bind]. eexists. split; [done|]. by rewrite all_eq_arange.
Qed.

Lemma lookup_column_ok (m n : nat) (aktzlut data : DataFrame)
    (field name : string) (ids idx : list Z) (vals : list string) :
  wf_df m aktzlut →
  df_get aktzlut "LocationID" = Ok (Int64 ids) →
  cell_zero_up aktzlut = Ok true →
  df_get aktzlut field = Ok (Strings vals) →
  wf_df n data →
  df_get data name = Ok (Int64 idx) →
  Forall (λ id, 0 ≤ id < Z.of_nat m)%Z idx →
  ∃ out, lookup_column aktzlut data field name = Ok (Strings out)
         ∧ length out = n
         ∧ looked_up ids vals idx out.
Proof.
  intros Hwf Hids Hzero Hvals Hwfd Hidx Hrange.
  pose proof (df_get_size m aktzlut field _ Hwf Hvals) as Hm. simpl in Hm.
  pose proof (df_get_size n data name _ Hwfd Hidx) as Hn. simpl in Hn.
  destruct (cell_zero_up_spec m aktzlut ids Hwf Hids) as (b & Hb & Hiff).
  rewrite Hzero in Hb. injection Hb as <-.
  pose proof (proj1 Hiff eq_refl) as Hpos. clear Hiff.
  destruct (gather_ok vals idx) as (out & Hout & Hlen & Hget);
    [rewrite Hm; exact Hrange|].
  exists out. split_and!.
  - unfold lookup_column. rewrite Hvals, Hidx. cbn [bind as_int getitem_idx].
    by rewrite Hout.
  - congruence.
  - split; [done|]. intros i id j Hi Hj.
    destruct (Hget i id Hi) as [Hsome Heq]. split; [exact Hsome|].
    rewrite Heq, (Hpos j id Hj). by rewrite Nat2Z.id.
Qed.

(** ** Converting a pandas table *)

Lemma dict_set_fresh (d : list (string * column)) (name : string) (c : column) :
  name ∉ columns d → dict_set d name c = d ++ [(name, c)].
Proof.
  unfold columns. induction d as [|[k c'] d IH]; [done|].
  cbn [fmap list_fmap fst dict_set]. rewrite not_elem_of_cons.
  intros [Hne Hin]. rewrite bool_decide_eq_false_2 by done.
  by rewrite IH.
Qed.

Lemma pd_get_elem_of (df : list (string * series)) (cname : string)
    (s : series) :
  NoDup df.*1 → (cname, s) ∈ df → pd_get df cname = Ok s.
Proof.
  induction df as [|[k s'] df IH]; [by intros _ ?%elem_of_nil|].
  cbn [fmap list_fmap fst pd_get]. intros [Hk Hnd]%NoDup_cons.
  intros [[= -> ->]|Hin]%elem_of_cons.
  - by rewrite bool_decide_eq_true_2.
  - rewrite bool_decide_eq_false_2; [by apply IH|].
    intros ->. apply Hk. apply list_elem_of_fmap. by exists (cname, s).
Qed.

Lemma ak_create_loop_ok (from_series : series → bool → result column)
    (df rest : list (string * series)) (acc : list (string * column)) :
  NoDup df.*1 → NoDup (columns acc ++ rest.*1) →
  (∀ x, x ∈ rest → x ∈ df) →
  Forall (λ ks, is_ok (converted from_series ks.2)) rest →
  ∃ new,
    ak_create_loop from_series df rest.*1 acc = Ok (acc ++ new)
    ∧ new.*1 = rest.*1
    ∧ Forall2 (λ ks kc, converted from_series ks.2 = Ok kc.2) rest new.
Proof.
  intros Hnd. revert acc.
  induction rest as [|[k s] rest IH]; intros acc Hfresh Hsub Hok.
  - exists []. by rewrite app_nil_r.
  - apply Forall_cons in Hok as [Hs Hok]. simpl in Hs.
    destruct (converted from_series s) as [c|] eqn:Hc; [|done].
    cbn [fmap list_fmap fst ak_create_loop] in *.
    rewrite (pd_get_elem_of df k s) by (first [done | apply Hsub; left]).
    cbn [bind]. unfold converted in Hc.
    assert ((if bool_decide (dtype_name s = "object"%string)
             then from_series s true else from_series s false) = Ok c)
      as -> by (by destruct (bool_decide _)).
    cbn [bind].
    apply NoDup_app in Hfresh as (Hacc & Hdisj & Hrest).
    apply NoDup_cons in Hrest as [Hk Hrest].
    rewrite dict_set_fresh by (intros Hin; apply (Hdisj k Hin); left).
    destruct (IH (acc ++ [(k, c)])) as (new & Hrun & Hnames & Hconv).
    + unfold columns in *. rewrite fmap_app. cbn [fmap list_fmap fst].
      rewrite <-app_assoc. apply NoDup_app. split_and!; [done| |].
      * intros x Hx [->|Hin]%elem_of_cons; [|by eapply Hdisj; [|right]].
        apply (Hdisj k Hx). left.
      * by apply NoDup_cons.
    + intros x Hx. apply Hsub. by right.
    + done.
    + exists ((k, c) :: new). rewrite Hrun, <-app_assoc. split_and!.
      * done.
      * cbn [fmap list_fmap fst]. by f_equal.
      * constructor; [by unfold converted|done].
Qed.

(** ** The rows that a filter keeps *)

Lemma kept_rows_sublist (mask : list bool) :
  kept_rows mask `sublist_of` seq 0 (length mask).
Proof. apply compress_sublist. Qed.

Lemma kept_rows_length (mask : list bool) :
  length (kept_rows mask) = count_true mask.
Proof. unfold kept_rows. by rewrite compress_length by by rewrite length_seq. Qed.

Lemma elem_of_compress_seq (mask : list bool) (s i : nat) :
  i ∈ compress mask (seq s (length mask))
  ↔ (s ≤ i)%nat ∧ mask !! (i - s)%nat = Some true.
Proof.
  revert s. induction mask as [|b mask IH]; intros s; cbn [length seq compress].
  - split; [by intros ?%elem_of_nil|by intros [_ ?]].
  - assert (i ∈ compress mask (seq (S s) (length mask))
            ↔ (s < i)%nat ∧ (b :: mask) !! (i - s)%nat = Some true) as IH'.
    { rewrite IH. split.
      - intros [Hs Hi]. split; [lia|].
        by replace (i - s)%nat with (S (i - S s)) by lia.
      - intros [Hs Hi]. split; [lia|].
        by replace (i - s)%nat with (S (i - S s)) in Hi by lia. }
    destruct b.
    + rewrite elem_of_cons, IH'. split.
      * intros [->|[Hs Hi]]; [|split; [lia|done]].
        split; [lia|]. by rewrite Nat.sub_diag.
      * intros [Hs Hi]. destruct (decide (i = s)) as [->|Hne]; [by left|].
        right. split; [lia|done].
    + rewrite IH'. split.
      * intros [Hs Hi]. split; [lia|done].
      * intros [Hs Hi]. split; [|done].
        destruct (decide (i = s)) as [->|Hne]; [|lia].
        by rewrite Nat.sub_diag in Hi.
Qed.

(** The kept rows are the rows at which the mask is true. *)
Lemma elem_of_kept_rows (mask : list bool) (i : nat) :
  i ∈ kept_rows mask ↔ mask !! i = Some true.
Proof.
  unfold kept_rows. rewrite elem_of_compress_seq, Nat.sub_0_r.
  split; [by intros [_ ?]|]. intros ?. split; [lia|done].
Qed.

Lemma getitem_int_compress (mask : list bool) (c : column) (j i : nat) :
  size c = length mask → kept_rows mask !! j = Some i →
  getitem_int (compress_col mask c) j = getitem_int c i.
Proof.
  intros Hlen Hj. unfold getitem_int, kept_rows in *.
  destruct c as [l|l|l|l]; cbn [compress_col size] in *;
    rewrite (compress_lookup mask l 0 j Hlen), Hj; cbn [mbind option_bind];
    by rewrite Nat.sub_0_r.
Qed.

(** Row [j] of the filtered table is the [j]-th kept row of the source. *)
Lemma row_at_select_rows (n : nat) (mask : list bool) (data : DataFrame)
    (j i : nat) :
  wf_df n data → length mask = n → kept_rows mask !! j = Some i →
  row_at (select_rows mask data) j = row_at data i.
Proof.
  intros Hwf Hlen Hj. induction Hwf as [|[k c] df Hc _ IH]; [done|].
  cbn [select_rows fmap list_fmap prod_map fst snd id row_at].
  simpl in Hc. rewrite (getitem_int_compress mask c j i) by congruence.
  destruct (getitem_int c i) as [x|e]; [|done]. cbn [bind].
  unfold select_rows in IH. by rewrite IH.
Qed.

(** Filtering a well-formed table by a condition on the entries of one of
    its columns, row by row: the positions [kept] of the rows that meet the
    condition, and every row of the result as the row of the source at the
    corresponding position. *)
Lemma filter_by_column_rows (P : Qc → Prop) `{!∀ x, Decision (P x)}
    (n : nat) (data : DataFrame) (name : string) (c : column)
    (xs : list Qc) :
  wf_df n data → df_get data name = Ok c → as_float c = Ok xs →
  ∃ kept,
    kept `sublist_of` seq 0 n
    ∧ (∀ i, i ∈ kept ↔ ∃ x, xs !! i = Some x ∧ P x)
    ∧ length kept = length (filter P xs)
    ∧ (∀ j i, kept !! j = Some i →
         ∃ row, row_at data i = Ok row
           ∧ row_at (select_rows ((λ x, bool_decide (P x)) <$> xs) data) j
             = Ok row).
Proof.
  intros Hwf Hc Hxs.
  set (mask := (λ x, bool_decide (P x)) <$> xs).
  assert (length mask = n) as Hlen.
  { unfold mask. rewrite length_fmap, (as_float_length c) by done.
    by eapply df_get_size. }
  exists (kept_rows mask). split_and!.
  - rewrite <-Hlen. apply kept_rows_sublist.
  - intros i. rewrite elem_of_kept_rows. unfold mask.
    rewrite list_lookup_fmap. destruct (xs !! i) as [x|]; simpl.
    + split.
      * intros [= Hx%bool_decide_eq_true]. by exists x.
      * intros (? & [= <-] & Hx). f_equal. by apply bool_decide_eq_true.
    + split; [done|]. by intros (? & ? & _).
  - rewrite kept_rows_length, <-(compress_bool_decide P xs). fold mask.
    symmetry. apply compress_length. unfold mask. by rewrite length_fmap.
  - intros j i Hj.
    assert (i < n)%nat as Hi.
    { apply list_elem_of_lookup_2 in Hj.
      apply (λ H, elem_of_sublist _ _ _ H (kept_rows_sublist mask)) in Hj.
      apply elem_of_seq in Hj. lia. }
    destruct (row_at_ok n i data Hwf Hi) as (row & Hrow & _).
    exists row. split; [done|].
    by rewrite (row_at_select_rows n mask data j i).
Qed.

(** * Further results *)

(** X1. On every well-formed ride table the z-score cells succeed and only
    add to the table: the row count is kept, every column other than
    ['fare_mean'], ['fare_std'] and ['fare_z'] reads as before, the
    original columns keep their order, and the derived columns that were
    not there yet follow them in the order of their assignment. *)
Theorem zscore_cells_only_add_columns (n : nat) (data : DataFrame)
    (pu do : list Z) (fare : list Qc) :
  ride_table n data pu do fare →
  ∃ data',
    zscore_cells data = Ok data'
    ∧ wf_df n data'
    ∧ (∀ name, name ∉ derived_columns → df_get data' name = df_get data name)
    ∧ columns data'
      = columns data ++ filter (λ name, name ∉ columns data) derived_columns
    ∧ Forall (λ name, name ∈ columns data') derived_columns.
Proof.
  intros Hrt.
  destruct (zscore_cells_result n data pu do fare Hrt)
    as (data' & Hrun & Hwf & Hm & Hs & Hz & Hold & Hcols).
  exists data'. split_and!; try done.
  rewrite Hcols. apply Forall_forall. intros name Hname.
  destruct (decide (name ∈ columns data)) as [Hin|Hin].
  - apply elem_of_app. by left.
  - apply elem_of_app. right. by apply list_elem_of_filter.
Qed.

Lemma zscore_cells_only_add_columns_witness :
  ride_table 5 two_groups [1; 1; 1; 2; 2]%Z [1; 1; 1; 3; 3]%Z
    [Z2Qc 10; Z2Qc 10; Z2Qc 10; Z2Qc 0; Z2Qc 20]
  ∧ ∃ data',
      zscore_cells two_groups = Ok data'
      ∧ wf_df 5 data'
      ∧ (∀ name, name ∉ derived_columns →
           df_get data' name = df_get two_groups name)
      ∧ columns data'
        = columns two_groups
          ++ filter (λ name, name ∉ columns two_groups) derived_columns
      ∧ Forall (λ name, name ∈ columns data') derived_columns.
Proof.
  split; [repeat split; repeat constructor|].
  apply (zscore_cells_only_add_columns 5 two_groups
           [1; 1; 1; 2; 2]%Z [1; 1; 1; 3; 3]%Z
           [Z2Qc 10; Z2Qc 10; Z2Qc 10; Z2Qc 0; Z2Qc 20]).
  repeat split; repeat constructor.
Defined.

(** X2. Running the z-score cells a second time, on their own result,
    succeeds and changes nothing: the three assignments overwrite the
    derived columns with the values they already hold. *)
Theorem zscore_cells_rerun (n : nat) (data : DataFrame)
    (pu do : list Z) (fare : list Qc) :
  ride_table n data pu do fare →
  ∃ data', zscore_cells data = Ok data' ∧ zscore_cells data' = Ok data'.
Proof.
  intros Hrt.
  destruct (zscore_cells_result n data pu do fare Hrt)
    as (data' & Hrun & Hwf & Hm & Hs & Hz & Hold & Hcols).
  exists data'. split; [done|].
  assert (ride_table n data' pu do fare) as Hrt'.
  { destruct Hrt as (_ & Hpu & Hdo & Hfare).
    split_and!; [done|rewrite Hold..]; try done;
      unfold derived_columns; rewrite !not_elem_of_cons;
      split_and!; try done; apply not_elem_of_nil. }
  rewrite (zscore_cells_closed n data' pu do fare Hrt').
  f_equal. rewrite (dict_set_same data' "fare_mean") by done.
  rewrite (dict_set_same data' "fare_std") by done.
  by apply dict_set_same.
Qed.

Lemma zscore_cells_rerun_witness :
  ride_table 5 two_groups [1; 1; 1; 2; 2]%Z [1; 1; 1; 3; 3]%Z
    [Z2Qc 10; Z2Qc 10; Z2Qc 10; Z2Qc 0; Z2Qc 20]
  ∧ ∃ data', zscore_cells two_groups = Ok data'
             ∧ zscore_cells data' = Ok data'.
Proof.
  split; [repeat split; repeat constructor|].
  apply (zscore_cells_rerun 5 two_groups
           [1; 1; 1; 2; 2]%Z [1; 1; 1; 3; 3]%Z
           [Z2Qc 10; Z2Qc 10; Z2Qc 10; Z2Qc 0; Z2Qc 20]).
  repeat split; repeat constructor.
Defined.

(** X5. The group sizes [w] returned by [byloc.size()] have one entry per
    group, every entry is at least 1, so that the division by [w] in the
    [sf] cell never divides by zero, and the entries add up to the number
    of rows of the grouped table. *)
Theorem group_sizes_positive_and_total (byloc : GroupBy.t) :
  length (cell_size byloc) = GroupBy.ngroups byloc
  ∧ Forall (λ w, 1 ≤ w)%Z (cell_size byloc)
  ∧ foldr Z.add 0%Z (cell_size byloc)
    = Z.of_nat (length (GroupBy.keys byloc)).
Proof.
  unfold cell_size, GroupBy.size. cbn [snd]. split_and!.
  - by rewrite length_fmap.
  - rewrite Forall_fmap. apply Forall_forall. intros k Hk. simpl.
    apply elem_of_unique_keys in Hk. pose proof (count_pos byloc k Hk). lia.
  - unfold GroupBy.count.
    rewrite (sum_counts_concat (λ k, GroupBy.segment byloc k (GroupBy.keys byloc))).
    by rewrite group_segments_perm.
Qed.

(** X6. On a raw CSV cell, which is a string, the converter returns the
    cell itself unless it is empty, never returns the empty string, and
    converting its result again gives the same result. *)
Theorem cvt_to_string_on_str (s : string) :
  ∃ r, cvt_to_string (PyStr s) = Ok r
       ∧ r ≠ ""%string
       ∧ r = (if bool_decide (s = ""%string) then "N/A"%string else s)
       ∧ cvt_to_string (PyStr r) = Ok r.
Proof.
  unfold cvt_to_string, try_except, bind, py_eq_str, py_str.
  destruct (decide (s = ""%string)) as [->|Hs].
  - exists "N/A"%string. by split_and!.
  - exists s. rewrite !bool_decide_eq_false_2 by done. by split_and!.
Qed.

(** X11. The non-negative filter keeps exactly the rides with a
    non-negative fare, in their order.  With [kept] the increasing list of
    the positions of the rides whose fare is non-negative, row [j] of the
    new table is, in every column, the row of the source table at position
    [kept[j]], and the new table has [length kept] rows; every column of
    the new table is the selection of the source column of the same name by
    one and the same mask.  In particular the fare column of the new table
    is the list of the non-negative fares, the column names are unchanged,
    and applying the filter to its own result returns that result. *)
Theorem non_neg_filter_keeps_non_negative_fares (n : nat) (data : DataFrame)
    (c : column) (fare : list Qc) :
  wf_df n data →
  df_get data "fare_amount" = Ok c →
  as_float c = Ok fare →
  ∃ data' c' fare' kept,
    cell_non_neg data = Ok data'
    ∧ columns data' = columns data
    ∧ df_get data' "fare_amount" = Ok c'
    ∧ as_float c' = Ok fare'
    ∧ fare' = filter (λ x, 0 <= x) fare
    ∧ Forall (λ x, 0 <= x) fare'
    ∧ wf_df (length fare') data'
    ∧ cell_non_neg data' = Ok data'
    ∧ kept `sublist_of` seq 0 n
    ∧ (∀ i, i ∈ kept ↔ ∃ x, fare !! i = Some x ∧ 0 <= x)
    ∧ wf_df (length kept) data'
    ∧ (∀ j i, kept !! j = Some i →
         ∃ row, row_at data i = Ok row ∧ row_at data' j = Ok row)
    ∧ Forall2 (λ kc kc',
                 kc'.1 = kc.1
                 ∧ kc'.2 = compress_col ((λ x, bool_decide (0 <= x)) <$> fare)
                             kc.2)
        data data'.
Proof.
  intros Hwf Hc Hxs.
  destruct (filter_by_column (λ x, 0 <= x) n data "fare_amount" c fare
              Hwf Hc Hxs)
    as (data' & c' & Hrun & Hcols & Hwf' & Hc' & Hxs' & Hagain).
  destruct (filter_by_column_rows (λ x, 0 <= x) n data "fare_amount" c fare
              Hwf Hc Hxs)
    as (kept & Hsub & Hkept & Hklen & Hrows).
  assert (data' = select_rows ((λ x, bool_decide (0 <= x)) <$> fare) data)
    as Hsel.
  { rewrite filter_rows_ok in Hrun; [congruence|].
    rewrite length_fmap, (as_float_length c) by done.
    by rewrite (df_get_size n data _ c Hwf Hc). }
  exists data', c', (filter (λ x, 0 <= x) fare), kept.
  split_and!; try done.
  - unfold cell_non_neg, non_neg_mask. rewrite Hc. cbn [bind].
    by rewrite Hxs.
  - apply Forall_forall. by intros x [Hx _]%list_elem_of_filter.
  - unfold cell_non_neg, non_neg_mask. rewrite Hc'. cbn [bind].
    by rewrite Hxs'.
  - by rewrite Hklen.
  - by rewrite Hsel.
  - rewrite Hsel. eapply Forall2_impl; [apply select_rows_Forall2|].
    by intros ?? (? & ? & _).
Qed.

Lemma non_neg_filter_keeps_non_negative_fares_witness :
  wf_df 3 with_refund
  ∧ df_get with_refund "fare_amount"
    = Ok (Float64 [Z2Qc 10; Z2Qc (-5); Z2Qc 7])
  ∧ as_float (Float64 [Z2Qc 10; Z2Qc (-5); Z2Qc 7])
    = Ok [Z2Qc 10; Z2Qc (-5); Z2Qc 7]
  ∧ ∃ data' c' fare' kept,
      cell_non_neg with_refund = Ok data'
      ∧ columns data' = columns with_refund
      ∧ df_get data' "fare_amount" = Ok c'
      ∧ as_float c' = Ok fare'
      ∧ fare' = filter (λ x, 0 <= x) [Z2Qc 10; Z2Qc (-5); Z2Qc 7]
      ∧ Forall (λ x, 0 <= x) fare'
      ∧ wf_df (length fare') data'
      ∧ cell_non_neg data' = Ok data'
      ∧ kept `sublist_of` seq 0 3
      ∧ (∀ i, i ∈ kept
           ↔ ∃ x, [Z2Qc 10; Z2Qc (-5); Z2Qc 7] !! i = Some x ∧ 0 <= x)
      ∧ wf_df (length kept) data'
      ∧ (∀ j i, kept !! j = Some i →
           ∃ row, row_at with_refund i = Ok row ∧ row_at data' j = Ok row)
      ∧ Forall2 (λ kc kc',
                   kc'.1 = kc.1
                   ∧ kc'.2
                     = compress_col
                         ((λ x, bool_decide (0 <= x))
                            <$> [Z2Qc 10; Z2Qc (-5); Z2Qc 7])
                         kc.2)
          with_refund data'.
Proof.
  split; [repeat constructor|]. split; [reflexivity|]. split; [reflexivity|].
  apply (non_neg_filter_keeps_non_negative_fares 3 with_refund
           (Float64 [Z2Qc 10; Z2Qc (-5); Z2Qc 7]));
    [repeat constructor|reflexivity|reflexivity].
Defined.

(** X12. The table [exdf] holds exactly the rows with a z-score above 2,
    in their order.  With [kept] the increasing list of the positions of
    the rows whose z-score is above 2, row [j] of [exdf] is, in every
    column, the row of the source table at position [kept[j]], and [exdf]
    has [length kept] rows; every column of [exdf] is the selection of the
    source column of the same name by one and the same mask.  In
    particular its ['fare_z'] column is the list of the z-scores above 2
    and its column names are those of the source table. *)
Theorem exdf_keeps_scores_above_two (n : nat) (data : DataFrame)
    (c : column) (z : list Qc) :
  wf_df n data →
  df_get data "fare_z" = Ok c →
  as_float c = Ok z →
  ∃ exdf c' z' kept,
    cell_exdf data = Ok exdf
    ∧ columns exdf = columns data
    ∧ df_get exdf "fare_z" = Ok c'
    ∧ as_float c' = Ok z'
    ∧ z' = filter (λ x, 2 < x) z
    ∧ Forall (λ x, 2 < x) z'
    ∧ wf_df (length z') exdf
    ∧ kept `sublist_of` seq 0 n
    ∧ (∀ i, i ∈ kept ↔ ∃ x, z !! i = Some x ∧ 2 < x)
    ∧ wf_df (length kept) exdf
    ∧ (∀ j i, kept !! j = Some i →
         ∃ row, row_at data i = Ok row ∧ row_at exdf j = Ok row)
    ∧ Forall2 (λ kc kc',
                 kc'.1 = kc.1
                 ∧ kc'.2 = compress_col ((λ x, bool_decide (2 < x)) <$> z)
                             kc.2)
        data exdf.
Proof.
  intros Hwf Hc Hxs.
  destruct (filter_by_column (λ x, 2 < x) n data "fare_z" c z Hwf Hc Hxs)
    as (data' & c' & Hrun & Hcols & Hwf' & Hc' & Hxs' & Hagain).
  destruct (filter_by_column_rows (λ x, 2 < x) n data "fare_z" c z
              Hwf Hc Hxs)
    as (kept & Hsub & Hkept & Hklen & Hrows).
  assert (data' = select_rows ((λ x, bool_decide (2 < x)) <$> z) data)
    as Hsel.
  { rewrite filter_rows_ok in Hrun; [congruence|].
    rewrite length_fmap, (as_float_length c) by done.
    by rewrite (df_get_size n data _ c Hwf Hc). }
  exists data', c', (filter (λ x, 2 < x) z), kept.
  split_and!; try done.
  - unfold cell_exdf, exorbitant_mask. rewrite Hc. cbn [bind].
    by rewrite Hxs.
  - apply Forall_forall. by intros x [Hx _]%list_elem_of_filter.
  - by rewrite Hklen.
  - by rewrite Hsel.
  - rewrite Hsel. eapply Forall2_impl; [apply select_rows_Forall2|].
    by intros ?? (? & ? & _).
Qed.

Lemma exdf_keeps_scores_above_two_witness :
  wf_df 5 two_groups_scored
  ∧ df_get two_groups_scored "fare_z"
    = Ok (Float64 [Z2Qc 0; Z2Qc 0; Z2Qc 0; Q2Qc (-10 # 101); Q2Qc (10 # 101)])
  ∧ as_float
      (Float64 [Z2Qc 0; Z2Qc 0; Z2Qc 0; Q2Qc (-10 # 101); Q2Qc (10 # 101)])
    = Ok [Z2Qc 0; Z2Qc 0; Z2Qc 0; Q2Qc (-10 # 101); Q2Qc (10 # 101)]
  ∧ ∃ exdf c' z' kept,
      cell_exdf two_groups_scored = Ok exdf
      ∧ columns exdf = columns two_groups_scored
      ∧ df_get exdf "fare_z" = Ok c'
      ∧ as_float c' = Ok z'
      ∧ z' = filter (λ x, 2 < x)
               [Z2Qc 0; Z2Qc 0; Z2Qc 0; Q2Qc (-10 # 101); Q2Qc (10 # 101)]
      ∧ Forall (λ x, 2 < x) z'
      ∧ wf_df (length z') exdf
      ∧ kept `sublist_of` seq 0 5
      ∧ (∀ i, i ∈ kept
           ↔ ∃ x, [Z2Qc 0; Z2Qc 0; Z2Qc 0; Q2Qc (-10 # 101); Q2Qc (10 # 101)]
                    !! i = Some x ∧ 2 < x)
      ∧ wf_df (length kept) exdf
      ∧ (∀ j i, kept !! j = Some i →
           ∃ row, row_at two_groups_scored i = Ok row
             ∧ row_at exdf j = Ok row)
      ∧ Forall2 (λ kc kc',
                   kc'.1 = kc.1
                   ∧ kc'.2
                     = compress_col
                         ((λ x, bool_decide (2 < x))
                            <$> [Z2Qc 0; Z2Qc 0; Z2Qc 0;
                                 Q2Qc (-10 # 101); Q2Qc (10 # 101)])
                         kc.2)
          two_groups_scored exdf.
Proof.
  split; [repeat constructor|]. split; [reflexivity|]. split; [reflexivity|].
  apply (exdf_keeps_scores_above_two 5 two_groups_scored
           (Float64 [Z2Qc 0; Z2Qc 0; Z2Qc 0;
                     Q2Qc (-10 # 101); Q2Qc (10 # 101)]));
    [repeat constructor|reflexivity|reflexivity].
Defined.



(** X14. The notebook filters before it scores: on every well-formed ride
    table the non-negative filter followed by the z-score cells succeeds,
    and the scored table has one row for every non-negative fare, with
    exactly those fares in its fare column. *)
Theorem non_neg_then_zscore (n : nat) (data : DataFrame)
    (pu do : list Z) (fare : list Qc) :
  ride_table n data pu do fare →
  ∃ kept scored fare',
    cell_non_neg data = Ok kept
    ∧ zscore_cells kept = Ok scored
    ∧ df_get scored "fare_amount" = Ok (Float64 fare')
    ∧ fare' = filter (λ x, 0 <= x) fare
    ∧ wf_df (length fare') scored
    ∧ Forall (λ name, name ∈ columns scored) derived_columns.
Proof.
  intros (Hwf & Hpu & Hdo & Hfare).
  set (mask := (λ x, bool_decide (0 <= x)) <$> fare).
  pose proof (df_get_size n data _ _ Hwf Hfare) as Hfl. simpl in Hfl.
  assert (length mask = n) as Hlen by (unfold mask; by rewrite length_fmap).
  assert (compress mask fare = filter (λ x, 0 <= x) fare) as Hkeep
    by apply compress_bool_decide.
  assert (count_true mask = length (filter (λ x, 0 <= x) fare)) as Hcount.
  { rewrite <-Hkeep. symmetry. apply compress_length. congruence. }
  assert (ride_table (length (filter (λ x, 0 <= x) fare))
            (select_rows mask data) (compress mask pu) (compress mask do)
            (filter (λ x, 0 <= x) fare)) as Hrt.
  { split_and!.
    - rewrite <-Hcount. apply select_rows_wf. by rewrite Hlen.
    - by rewrite df_get_select_rows, Hpu.
    - by rewrite df_get_select_rows, Hdo.
    - rewrite df_get_select_rows, Hfare. simpl. by rewrite Hkeep. }
  destruct (zscore_cells_result _ _ _ _ _ Hrt)
    as (scored & Hrun & Hwf' & Hm & Hs & Hz & Hold & Hcols).
  exists (select_rows mask data), scored, (filter (λ x, 0 <= x) fare).
  split_and!; try done.
  - unfold cell_non_neg, non_neg_mask. rewrite Hfare. cbn [bind as_float].
    apply filter_rows_ok. by rewrite Hlen.
  - rewrite Hold; [by destruct Hrt as (_ & _ & _ & ?)|].
    unfold derived_columns. rewrite !not_elem_of_cons.
    split_and!; try done. apply not_elem_of_nil.
  - rewrite Hcols. apply Forall_forall. intros name Hname.
    apply elem_of_app.
    destruct (decide (name ∈ columns (select_rows mask data)));
      [by left|right; by apply list_elem_of_filter].
Qed.

Lemma non_neg_then_zscore_witness :
  ride_table 3 with_refund [1; 1; 2]%Z [1; 1; 3]%Z
    [Z2Qc 10; Z2Qc (-5); Z2Qc 7]
  ∧ ∃ kept scored fare',
      cell_non_neg with_refund = Ok kept
      ∧ zscore_cells kept = Ok scored
      ∧ df_get scored "fare_amount" = Ok (Float64 fare')
      ∧ fare' = filter (λ x, 0 <= x) [Z2Qc 10; Z2Qc (-5); Z2Qc 7]
      ∧ wf_df (length fare') scored
      ∧ Forall (λ name, name ∈ columns scored) derived_columns.
Proof.
  split; [repeat split; repeat constructor|].
  apply (non_neg_then_zscore 3 with_refund [1; 1; 2]%Z [1; 1; 3]%Z).
  repeat split; repeat constructor.
Defined.

(** X15. After the z-score cells the anomaly cells find their column: the
    [z > 2] filter always succeeds and keeps the column names; the
    [argmax] cell succeeds with a valid row index and a complete row
    whenever the table has a row, and on a table without rows it raises the
    empty-selection error while the filter still returns a table. *)
Theorem anomaly_cells_after_zscore (n : nat) (data : DataFrame)
    (pu do : list Z) (fare : list Qc) :
  ride_table n data pu do fare →
  ∃ scored exdf,
    zscore_cells data = Ok scored
    ∧ cell_exdf scored = Ok exdf
    ∧ columns exdf = columns scored
    ∧ (n = 0%nat → cell_worst scored = Raise EmptySelectionError)
    ∧ ((0 < n)%nat →
       ∃ worst row, cell_worst scored = Ok worst ∧ (worst < n)%nat
                    ∧ row_at scored worst = Ok row
                    ∧ row.*1 = columns scored).
Proof.
  intros Hrt. pose proof (byloc_of_length _ _ _ _ _ Hrt) as [Hkl Hfl].
  destruct (zscore_cells_result n data pu do fare Hrt)
    as (scored & Hrun & Hwf & Hm & Hs & Hz & Hold & Hcols).
  destruct (filter_by_column (λ x, 2 < x) n scored "fare_z" _ _ Hwf Hz
              eq_refl)
    as (exdf & c' & Hex & Hexcols & _).
  exists scored, exdf. split_and!; try done.
  - unfold cell_exdf, exorbitant_mask. rewrite Hz. exact Hex.
  - intros ->. unfold cell_worst. rewrite Hz. cbn [bind as_float].
    destruct fare; [done|discriminate].
  - intros Hn. pose proof (df_get_size n scored _ _ Hwf Hz) as Hlen.
    cbn [size] in Hlen.
    destruct (argmax_spec
                (zip_with (fare_z_of (byloc_of pu do) fare) fare
                   (GroupBy.keys (byloc_of pu do))))
      as (i & m & Harg & Hi & _).
    { intros Hnil. rewrite Hnil in Hlen. simpl in Hlen. lia. }
    assert (i < n)%nat as Hin by (rewrite <-Hlen; by eapply lookup_lt_Some).
    destruct (row_at_ok n i scored Hwf Hin) as (row & Hrow & Hnames).
    exists i, row. split_and!; try done.
    unfold cell_worst. by rewrite Hz.
Qed.

Lemma anomaly_cells_after_zscore_witness :
  ride_table 5 two_groups [1; 1; 1; 2; 2]%Z [1; 1; 1; 3; 3]%Z
    [Z2Qc 10; Z2Qc 10; Z2Qc 10; Z2Qc 0; Z2Qc 20]
  ∧ ∃ scored exdf,
      zscore_cells two_groups = Ok scored
      ∧ cell_exdf scored = Ok exdf
      ∧ columns exdf = columns scored
      ∧ (5%nat = 0%nat → cell_worst scored = Raise EmptySelectionError)
      ∧ ((0 < 5)%nat →
         ∃ worst row, cell_worst scored = Ok worst ∧ (worst < 5)%nat
                      ∧ row_at scored worst = Ok row
                      ∧ row.*1 = columns scored).
Proof.
  split; [repeat split; repeat constructor|].
  apply (anomaly_cells_after_zscore 5 two_groups
           [1; 1; 1; 2; 2]%Z [1; 1; 1; 3; 3]%Z
           [Z2Qc 10; Z2Qc 10; Z2Qc 10; Z2Qc 0; Z2Qc 20]).
  repeat split; repeat constructor.
Defined.

(** X16. The check cell returns [True] exactly when the lookup table is
    zero-up indexed, that is, when the [LocationID] of its row [j] is [j]
    for every row. *)
Theorem zero_up_check_meaning (m : nat) (aktzlut : DataFrame)
    (ids : list Z) :
  wf_df m aktzlut →
  df_get aktzlut "LocationID" = Ok (Int64 ids) →
  ∃ b, cell_zero_up aktzlut = Ok b
       ∧ (b = true ↔ ∀ j id, ids !! j = Some id → id = Z.of_nat j).
Proof. apply cell_zero_up_spec. Qed.

Lemma zero_up_check_meaning_witness :
  wf_df 3 zones3
  ∧ df_get zones3 "LocationID" = Ok (Int64 [0; 1; 2]%Z)
  ∧ ∃ b, cell_zero_up zones3 = Ok b
         ∧ (b = true
            ↔ ∀ j id, [0; 1; 2]%Z !! j = Some id → id = Z.of_nat j).
Proof.
  split; [repeat constructor|]. split; [reflexivity|].
  apply (zero_up_check_meaning 3 zones3); [repeat constructor|reflexivity].
Defined.

(** X17. When the check cell returns [True] and every pickup and drop-off
    id of the ride table is a row number of the lookup table, the borough
    and zone cells succeed, keep the row count, and attach to every ride
    the borough and the zone of the lookup row that carries the ride's
    pickup (drop-off) location id. *)
Theorem lookup_cells_follow_location_id (m n : nat)
    (aktzlut data : DataFrame) (ids pu do : list Z)
    (boroughs zones : list string) :
  wf_df m aktzlut →
  df_get aktzlut "LocationID" = Ok (Int64 ids) →
  df_get aktzlut "Borough" = Ok (Strings boroughs) →
  df_get aktzlut "Zone" = Ok (Strings zones) →
  cell_zero_up aktzlut = Ok true →
  wf_df n data →
  df_get data "PULocationID" = Ok (Int64 pu) →
  df_get data "DOLocationID" = Ok (Int64 do) →
  Forall (λ id, 0 ≤ id < Z.of_nat m)%Z (pu ++ do) →
  ∃ data1 data2 pub dob puz doz,
    cell_boroughs aktzlut data = Ok data1
    ∧ cell_zones aktzlut data1 = Ok data2
    ∧ wf_df n data2
    ∧ df_get data2 "PUBorough" = Ok (Strings pub)
    ∧ df_get data2 "DOBorough" = Ok (Strings dob)
    ∧ df_get data2 "PUZone" = Ok (Strings puz)
    ∧ df_get data2 "DOZone" = Ok (Strings doz)
    ∧ looked_up ids boroughs pu pub
    ∧ looked_up ids boroughs do dob
    ∧ looked_up ids zones pu puz
    ∧ looked_up ids zones do doz.
Proof.
  intros Hwf Hids Hb Hz Hzero Hwfd Hpu Hdo [Hrpu Hrdo]%Forall_app.
  destruct (lookup_column_ok m n aktzlut data "Borough" "PULocationID"
              ids pu boroughs) as (pub & Hpub & Hlpub & Hlook1); try done.
  set (d1 := dict_set data "PUBorough" (Strings pub)).
  assert (wf_df n d1) as Hwf1 by by apply dict_set_wf.
  destruct (lookup_column_ok m n aktzlut d1 "Borough" "DOLocationID"
              ids do boroughs) as (dob & Hdob & Hldob & Hlook2); try done.
  { unfold d1. by rewrite df_get_dict_set_ne. }
  set (d2 := dict_set d1 "DOBorough" (Strings dob)).
  assert (wf_df n d2) as Hwf2 by by apply dict_set_wf.
  destruct (lookup_column_ok m n aktzlut d2 "Zone" "PULocationID"
              ids pu zones) as (puz & Hpuz & Hlpuz & Hlook3); try done.
  { unfold d2, d1. by rewrite !df_get_dict_set_ne. }
  set (d3 := dict_set d2 "PUZone" (Strings puz)).
  assert (wf_df n d3) as Hwf3 by by apply dict_set_wf.
  destruct (lookup_column_ok m n aktzlut d3 "Zone" "DOLocationID"
              ids do zones) as (doz & Hdoz & Hldoz & Hlook4); try done.
  { unfold d3, d2, d1. by rewrite !df_get_dict_set_ne. }
  exists d2, (dict_set d3 "DOZone" (Strings doz)), pub, dob, puz, doz.
  split_and!; try done.
  - unfold cell_boroughs. rewrite Hpub. cbn [bind].
    rewrite (df_set_ok n) by done. cbn [bind]. fold d1. rewrite Hdob.
    cbn [bind]. by apply (df_set_ok n).
  - unfold cell_zones. rewrite Hpuz. cbn [bind].
    rewrite (df_set_ok n) by done. cbn [bind]. fold d3. rewrite Hdoz.
    cbn [bind]. by apply (df_set_ok n).
  - by apply dict_set_wf.
  - unfold d3, d2, d1.
    do 3 (rewrite df_get_dict_set_ne by done). apply df_get_dict_set_eq.
  - unfold d3, d2.
    do 2 (rewrite df_get_dict_set_ne by done). apply df_get_dict_set_eq.
  - unfold d3. rewrite df_get_dict_set_ne by done. apply df_get_dict_set_eq.
  - apply df_get_dict_set_eq.
Qed.

Lemma lookup_cells_follow_location_id_witness :
  wf_df 3 zones3
  ∧ df_get zones3 "LocationID" = Ok (Int64 [0; 1; 2]%Z)
  ∧ df_get zones3 "Borough" = Ok (Strings ["N/A"; "Bronx"; "Queens"]%string)
  ∧ df_get zones3 "Zone" = Ok (Strings ["N/A"; "Allerton"; "Astoria"]%string)
  ∧ cell_zero_up zones3 = Ok true
  ∧ wf_df 3 rides3
  ∧ df_get rides3 "PULocationID" = Ok (Int64 [1; 2; 2]%Z)
  ∧ df_get rides3 "DOLocationID" = Ok (Int64 [2; 2; 1]%Z)
  ∧ Forall (λ id, 0 ≤ id < Z.of_nat 3)%Z ([1; 2; 2] ++ [2; 2; 1])%Z
  ∧ ∃ data1 data2 pub dob puz doz,
      cell_boroughs zones3 rides3 = Ok data1
      ∧ cell_zones zones3 data1 = Ok data2
      ∧ wf_df 3 data2
      ∧ df_get data2 "PUBorough" = Ok (Strings pub)
      ∧ df_get data2 "DOBorough" = Ok (Strings dob)
      ∧ df_get data2 "PUZone" = Ok (Strings puz)
      ∧ df_get data2 "DOZone" = Ok (Strings doz)
      ∧ looked_up [0; 1; 2]%Z ["N/A"; "Bronx"; "Queens"]%string
          [1; 2; 2]%Z pub
      ∧ looked_up [0; 1; 2]%Z ["N/A"; "Bronx"; "Queens"]%string
          [2; 2; 1]%Z dob
      ∧ looked_up [0; 1; 2]%Z ["N/A"; "Allerton"; "Astoria"]%string
          [1; 2; 2]%Z puz
      ∧ looked_up [0; 1; 2]%Z ["N/A"; "Allerton"; "Astoria"]%string
          [2; 2; 1]%Z doz.
Proof.
  assert (Forall (λ id, 0 ≤ id < Z.of_nat 3)%Z ([1; 2; 2] ++ [2; 2; 1])%Z)
    as Hr by (repeat constructor; lia).
  split; [repeat constructor|]. do 4 (split; [reflexivity|]).
  split; [repeat constructor|]. do 2 (split; [reflexivity|]).
  split; [exact Hr|].
  apply (lookup_cells_follow_location_id 3 3 zones3 rides3);
    first [reflexivity | exact Hr | repeat constructor].
Defined.

(** X20. [ak_create_from_df] keeps the shape of the pandas table: when the
    column names are distinct and [ak.from_series] converts every column
    to an array of one common length, the function returns a table with the
    same column names in the same order and that row count, whose columns
    are the conversions, requested with [dtype=str] exactly for the columns
    of dtype ['object']. *)
Theorem ak_create_from_df_keeps_shape
    (from_series : series → bool → result column) (n : nat)
    (df : list (string * series)) :
  NoDup df.*1 →
  Forall (λ ks, ∃ c, converted from_series ks.2 = Ok c ∧ size c = n) df →
  ∃ out,
    ak_create_from_df from_series df = Ok out
    ∧ columns out = df.*1
    ∧ wf_df n out
    ∧ Forall2 (λ ks kc, kc.1 = ks.1 ∧ converted from_series ks.2 = Ok kc.2)
        df out.
Proof.
  intros Hnd Hconv.
  destruct (ak_create_loop_ok from_series df df []) as (out & Hrun & Hnames & Hall).
  - done.
  - done.
  - done.
  - eapply Forall_impl; [exact Hconv|]. intros [k s] (c & Hc & _). simpl in *.
    by rewrite Hc.
  - simpl in Hrun.
    assert (wf_df n out) as Hwf.
    { unfold wf_df. clear Hrun Hnames Hnd. revert Hconv.
      induction Hall as [|[k s] [k' c] df out Hc _ IH]; intros Hconv;
        [constructor|].
      apply Forall_cons in Hconv as [(c' & Hc' & Hsz) Hconv]. simpl in *.
      constructor; [|by apply IH]. simpl. congruence. }
    exists out. split_and!; try done.
    + unfold ak_create_from_df. rewrite Hrun. cbn [bind].
      by apply (mk_DataFrame_ok n).
    + clear Hrun Hwf Hconv Hnd. revert Hnames.
      induction Hall as [|[k s] [k' c] df out Hc _ IH]; [constructor|].
      cbn [fmap list_fmap fst]. intros [= -> Hnames].
      constructor; [done|by apply IH].
Qed.

Lemma ak_create_from_df_keeps_shape_witness :
  NoDup pandas_zones.*1
  ∧ Forall (λ ks, ∃ c, converted from_series_example ks.2 = Ok c
                       ∧ size c = 2%nat) pandas_zones
  ∧ ∃ out,
      ak_create_from_df from_series_example pandas_zones = Ok out
      ∧ columns out = pandas_zones.*1
      ∧ wf_df 2 out
      ∧ Forall2 (λ ks kc, kc.1 = ks.1
                          ∧ converted from_series_example ks.2 = Ok kc.2)
          pandas_zones out.
Proof.
  assert (NoDup pandas_zones.*1) as Hnd.
  { cbn. apply NoDup_cons. split; [|apply NoDup_singleton].
    intros Hin%list_elem_of_singleton. discriminate Hin. }
  assert (Forall (λ ks, ∃ c, converted from_series_example ks.2 = Ok c
                             ∧ size c = 2%nat) pandas_zones) as Hconv.
  { repeat constructor; eexists; split; reflexivity. }
  split; [exact Hnd|]. split; [exact Hconv|].
  exact (ak_create_from_df_keeps_shape from_series_example 2 pandas_zones
           Hnd Hconv).
Defined.

(** On the example, the integer column stays numeric and the object column
    becomes a column of strings. *)
Example pandas_zones_converted :
  ak_create_from_df from_series_example pandas_zones
  = Ok [("LocationID"%string, Int64 [0; 1]%Z);
        ("Borough"%string, Strings ["N/A"; "Bronx"]%string)].
Proof. reflexivity. Qed.
